(** * CARMINE-T2.4: climate indicators, indicator-file lookup and map plotting

    A shallow embedding of
      - [Birmingham/indicator_Birmingham_MO.py] (the indicator functions),
      - [notebooks/_lib/paths.py] (the INDICATORS directory helpers),
      - [plot-map_2D.py] (the map plotting script),
    together with the properties stated about them.

    Conventions.
      - A float cell of a DataArray is an exact rational or NaN
        ([cell := option Q]); rounding is not modelled.
      - Python exceptions are values of [exn]; a call that may raise
        returns an [outcome].
      - The xclim indicators, the unit conversion and the calendar are
        parameters of the functions that use them; what the libraries read
        from disk is a field of [world].
      - What a run prints, reads, draws and writes is logged as a list of
        [event]s, in the order of the calls. *)

From Stdlib Require Import QArith Lqa Ascii.
From Stdlib Require OrderedTypeEx.
From stdpp Require Import gmap strings list sorting pretty.

Local Open Scope Z_scope.
Local Open Scope string_scope.

(** ** Exceptions and outcomes *)

(** The exception classes that occur in the three files.  All of them derive
    from Python's [Exception]. *)
Inductive exn_class :=
  | FitError | KeyError | ValueError | IndexError | RuntimeError
  | FileNotFoundError | FileExistsError | OSError
  | OtherException (name : string).

Record exn := Exn { exn_cls : exn_class; exn_msg : string }.

Inductive outcome (A : Type) :=
  | Ok (a : A)
  | Raise (e : exn).
Arguments Ok {A} a.
Arguments Raise {A} e.

Global Instance exn_class_eq_dec : EqDecision exn_class.
Proof. solve_decision. Defined.

(** ** Float cells and DataArrays *)

(** One element of a float array: [None] is NaN. *)
Definition cell := option Q.

Definition lift2 (f : Q → Q → Q) (x y : cell) : cell :=
  match x, y with
  | Some a, Some b => Some (f a b)
  | _, _ => None
  end.

(** Arithmetic of an array element with another element or with a scalar;
    NaN propagates. *)
Definition cadd := lift2 Qplus.
Definition csub := lift2 Qminus.
Definition cmul := lift2 Qmult.
Definition cdiv := lift2 Qdiv.

(** Comparisons of an array element with a scalar; a comparison with NaN is
    [False]. *)
Definition cle (x : cell) (t : Q) : bool :=
  match x with Some a => Qle_bool a t | None => false end.
Definition cge (x : cell) (t : Q) : bool :=
  match x with Some a => Qle_bool t a | None => false end.
Definition cgt (x : cell) (t : Q) : bool :=
  match x with Some a => negb (Qle_bool a t) | None => false end.

(** [xr.where(cond, x, y)] at one element. *)
Definition xr_where {A} (cond : bool) (x y : A) : A := if cond then x else y.

(** NaN-skipping reductions ([skipna] is on by default for floats): the
    maximum and minimum of no value at all is NaN, the sum is 0. *)
Definition nanmax (xs : list cell) : cell :=
  foldr (λ x acc,
    match x, acc with
    | Some a, Some b => Some (if Qle_bool a b then b else a)
    | Some a, None => Some a
    | None, _ => acc
    end) None xs.

Definition nanmin (xs : list cell) : cell :=
  foldr (λ x acc,
    match x, acc with
    | Some a, Some b => Some (if Qle_bool a b then a else b)
    | Some a, None => Some a
    | None, _ => acc
    end) None xs.

Definition nansum (xs : list cell) : Q :=
  foldr (λ x acc, match x with Some a => (a + acc)%Q | None => acc end) 0%Q xs.

(** A one-dimensional DataArray over a time-like coordinate [K]: its
    attribute dictionary and its (coordinate, value) pairs. *)
Record DataArray (K : Type) := mkDataArray {
  attrs : gmap string string;
  data : list (K * cell)
}.
Arguments mkDataArray {K} attrs data.
Arguments attrs {K} d.
Arguments data {K} d.

(** A time stamp: the ordinal of its day and the second within the day. *)
Definition timestamp : Type := Z * Z.
Definition day_of (t : timestamp) : Z := t.1.

Definition time_axis {K} (da : DataArray K) : list K := fst <$> data da.

(** The values of [da] whose coordinate is mapped to [k] by [key]. *)
Definition bin {K} (key : K → Z) (k : Z) (da : DataArray K) : list cell :=
  snd <$> filter (λ s, key s.1 = k) (data da).

(** [da.resample(time="D").<agg>(keep_attrs=True)] on a series that has a
    sample and is in the order of time: one bin per day from the first to
    the last day present (days without a sample included), each reduced by
    [agg].  On other series the library raises; the value given for them
    here stands for nothing in the code. *)
Definition resample_D (agg : list cell → cell) (da : DataArray timestamp)
    : DataArray Z :=
  mkDataArray (attrs da)
    match day_of <$> time_axis da with
    | [] => []
    | d :: ds =>
        let lo := foldr Z.min d ds in
        let hi := foldr Z.max d ds in
        (λ k, (k, agg (bin day_of k da))) <$> seqZ lo (hi - lo + 1)
    end.

Section Indicators.

(** The calendar: the year a day ordinal falls in. *)
Variable year_of : Z → Z.

(** [xclim.core.units.convert_units_to(da, target)]. *)
Variable convert_units_to : DataArray Z → string → DataArray Z.

(** [da.resample(time="YS").sum(keep_attrs=True)]: one bin per year that
    has a day, each the NaN-skipping sum of its days.  (On a daily axis
    without gaps these are all the years from the first to the last.) *)
Definition resample_YS_sum (da : DataArray Z) : DataArray Z :=
  mkDataArray (attrs da)
    ((λ y, (y, Some (nansum (bin year_of y da))))
       <$> remove_dups (year_of <$> time_axis da)).

(** *** gdd_baker *)

(** The nested [xr.where] of [gdd_baker] at one day. *)
Definition baker_D (tbase : Q) (tasmax_daily tasmin_daily : cell) : cell :=
  let tbase' : cell := Some tbase in
  let tavg := cdiv (cadd tasmax_daily tasmin_daily) (Some 2%Q) in
  xr_where (cle tasmax_daily tbase)
    (Some 0%Q)
    (xr_where (cge tasmin_daily tbase)
       (csub (cmul (Some 0.5%Q) (cadd tasmax_daily tasmin_daily)) tbase')
       (xr_where (cgt tavg tbase)
          (cadd (cdiv (csub tasmax_daily tbase') (Some 2%Q))
                (cdiv (csub tbase' tasmin_daily) (Some 4%Q)))
          (cdiv (csub tasmax_daily tbase') (Some 4%Q)))).

Definition gdd_attrs : gmap string string :=
  {[ "long_name" := "Number of growing degree days";
     "description" := "Annual Number of growing degree days calculated according to Baker et al (1980)";
     "units" := "1";
     "cell_methods" := "";
     "standard_name" := "growing_degree_days" ]}.

Definition gdd_tasmax_daily (tasmax : DataArray timestamp) : DataArray Z :=
  convert_units_to (resample_D nanmax tasmax) "degC".

Definition gdd_tasmin_daily (tasmin : DataArray timestamp) : DataArray Z :=
  convert_units_to (resample_D nanmin tasmin) "degC".

(** The array [D]: [xr.where] joins its arguments exactly, so the two
    daily arrays must carry the same time axis. *)
Definition gdd_D (tbase : Q) (tasmax_daily tasmin_daily : DataArray Z)
    : list (Z * cell) :=
  zip_with (λ x n, (x.1, baker_D tbase x.2 n.2))
    (data tasmax_daily) (data tasmin_daily).

Definition gdd_baker (tasmax tasmin : DataArray timestamp) (tbase : Q)
    (freq : string) : outcome (DataArray Z) :=
  let tasmax_daily := gdd_tasmax_daily tasmax in
  let tasmin_daily := gdd_tasmin_daily tasmin in
  if decide (time_axis tasmax_daily = time_axis tasmin_daily) then
    let D := mkDataArray (attrs tasmax_daily)
               (gdd_D tbase tasmax_daily tasmin_daily) in
    let gdd := resample_YS_sum D in
    Ok (mkDataArray gdd_attrs (data gdd))
  else
    Raise (Exn ValueError "cannot align objects with join='exact'").

(** *** tropical_nights *)

Definition tropical_nights
    (xc_tropical_nights : DataArray Z → string → DataArray Z)
    (tasmin : DataArray timestamp) (freq : string) : DataArray Z :=
  let tasmin_daily := resample_D nanmax tasmin in
  xc_tropical_nights tasmin_daily freq.

End Indicators.

(** ** Effects: a log of the calls made, and exceptions *)

(** A line written by [print]. *)
Inductive message :=
  | Text (s : string)
  | VarShape (var_name : string) (shape : list Z)
  | LonLatShape (lon_shape lat_shape : list Z)
  | DataExtent (lon_min lon_max lat_min lat_max : cell)
  | TotalBounds (geometries : list (list (Q * Q))).

(** Calls of [matplotlib.pyplot] and of the cartopy axes. *)
Inductive plt_call :=
  | figure (width height : Z)
  | axes_PlateCarree
  | gridlines
  | pcolormesh (lon lat data : list cell) (cmap : string) (vmin vmax : cell)
  | boundary_plot (geometries : list (list (Q * Q)))
  | colorbar
  | set_label (label : string)
  | set_extent (lon_min lon_max lat_min lat_max : cell)
  | title (label : string)
  | xlabel (label : string)
  | ylabel (label : string)
  | savefig (fname : string) (dpi : Z)
  | show.

(** What a run does that is visible from outside, in order. *)
Inductive event :=
  | Resample (rule how : string)
  | Xclim (indicator : string)
  | Print (m : message)
  | FsRead (file : string)
  | FsMkdir (dir : list string)   (* dir.mkdir(parents=True, exist_ok=True) *)
  | Plt (c : plt_call).

Global Instance Q_eq_dec : EqDecision Q.
Proof. solve_decision. Defined.
Global Instance message_eq_dec : EqDecision message.
Proof. solve_decision. Defined.
Global Instance plt_call_eq_dec : EqDecision plt_call.
Proof. solve_decision. Defined.
Global Instance event_eq_dec : EqDecision event.
Proof. solve_decision. Defined.

(** A computation logs events and then returns or raises. *)
Definition M (A : Type) : Type := list event * outcome A.

Definition ret {A} (a : A) : M A := ([], Ok a).
Definition raise {A} (e : exn) : M A := ([], Raise e).
Definition emit (ev : event) : M unit := ([ev], Ok tt).
Definition lift {A} (o : outcome A) : M A := ([], o).

Definition bind {A B} (m : M A) (k : A → M B) : M B :=
  match m with
  | (l, Ok a) => let '(l', r) := k a in ((l ++ l')%list, r)
  | (l, Raise e) => (l, Raise e)
  end.

Global Instance M_ret : MRet M := @ret.
Global Instance M_bind : MBind M := λ A B k m, bind m k.

(** [try: body  except <classes>: handler]. *)
Definition try_except {A} (body : M A) (catches : exn → bool)
    (handler : exn → M A) : M A :=
  match body with
  | (l, Raise e) =>
      if catches e then let '(l', r) := handler e in ((l ++ l')%list, r)
      else (l, Raise e)
  | returned => returned
  end.

Definition log {A} (m : M A) : list event := m.1.
Definition result {A} (m : M A) : outcome A := m.2.

(** [d[key]] on a dict. *)
Definition getitem {V} (d : gmap string V) (key : string) : M V :=
  match d !! key with
  | Some v => ret v
  | None => raise (Exn KeyError ("'" ++ key ++ "'"))
  end.

(** ** The indicators that go through xclim *)

Definition nanmean (xs : list cell) : cell :=
  match omap id xs with
  | [] => None
  | vs => Some (foldr Qplus 0%Q vs / inject_Z (Z.of_nat (length vs)))%Q
  end.

(** *** hot_spell_frequency *)

Record spell_type := mkSpell { name : string; thresh : string; window : Z }.

Definition hot_spell : gmap string spell_type :=
  {[ "summer" := mkSpell "summer_days" "25 degC" 1;
     "hot" := mkSpell "hot_days" "30 degC" 1;
     "heatwave" := mkSpell "heatwave_spell" "27 degC" 3 ]}.

Definition hot_spell_frequency
    (xc_hot_spell_frequency : DataArray Z → string → Z → string → DataArray Z)
    (tasmax : DataArray timestamp) (hot_spell_type : string) (freq : string)
    : M (DataArray Z) :=
  emit (Resample "D" "max") ;;
  let tasmax_daily := resample_D nanmax tasmax in
  th ← getitem hot_spell hot_spell_type;
  w ← getitem hot_spell hot_spell_type;
  emit (Xclim "hot_spell_frequency") ;;
  let da := xc_hot_spell_frequency tasmax_daily (thresh th) (window w) freq in
  n ← getitem hot_spell hot_spell_type;
  ret (mkDataArray (<["long_name" := name n]> (attrs da)) (data da)).

(** *** spi *)

(** What [spi] hands back: the index, or [xr.Dataset()]. *)
Inductive xr_object :=
  | IsDataArray (da : DataArray Z)
  | IsDataset (data_vars : list (string * DataArray Z)).

Definition is_FitError (e : exn) : bool := bool_decide (exn_cls e = FitError).

Definition spi
    (standardized_precipitation_index : DataArray Z → string → outcome (DataArray Z))
    (pr : DataArray timestamp) (freq : string) : M xr_object :=
  emit (Resample "D" "mean") ;;
  let pr_daily := resample_D nanmean pr in
  try_except
    (emit (Xclim "standardized_precipitation_index") ;;
     da ← lift (standardized_precipitation_index pr_daily freq);
     ret (IsDataArray da))
    is_FitError
    (λ e,
       emit (Print (Text ("Caught FitError: " ++ exn_msg e))) ;;
       ret (IsDataset [])).

(** ** notebooks/_lib/paths.py *)

(** A [pathlib.Path] is the list of its parts. *)
Definition path := list string.

Definition joinpath (p : path) (child : string) : path := (p ++ [child])%list.

(** [str(p)] of a path below the filesystem root. *)
Definition path_str (p : path) : string :=
  match p with
  | "/" :: rest => "/" ++ String.concat "/" rest
  | _ => String.concat "/" p
  end.

(** [p.name]. *)
Definition path_name (p : path) : string := List.last p "".

(** A directory tree.  Symbolic links are not modelled. *)
#[local] Set Warnings "-register-all".
Inductive node :=
  | File
  | Dir (entries : list (string * node)).

Definition is_dir (n : node) : bool :=
  match n with Dir _ => true | File => false end.

(** The node found by walking down [rel] from [t]. *)
Fixpoint fs_lookup (t : node) (rel : path) : option node :=
  match rel with
  | [] => Some t
  | c :: rest =>
      match t with
      | File => None
      | Dir entries =>
          match list_find (λ e, e.1 = c) entries with
          | Some (_, e) => fs_lookup e.2 rest
          | None => None
          end
      end
  end.

(** [parent.rglob(pattern)] for a one-component pattern: every entry below
    [parent] whose name the pattern accepts, the entries of a directory
    before those of its subdirectories.  Each hit comes with the node the
    filesystem holds for it. *)
Fixpoint rglob (accepts : string → bool) (parent : path) (t : node)
    : list (path * node) :=
  match t with
  | File => []
  | Dir entries =>
      ((λ e, (joinpath parent e.1, e.2)) <$> filter (λ e, accepts e.1 = true) entries)
      ++ flat_map (λ e, rglob accepts (joinpath parent e.1) e.2) entries
  end%list.

(** The order of [pathlib] paths: lexicographic on the parts, each part
    compared as a string. *)
Fixpoint path_compare (p q : path) : comparison :=
  match p, q with
  | [], [] => Eq
  | [], _ :: _ => Lt
  | _ :: _, [] => Gt
  | a :: p', b :: q' =>
      match String.compare a b with
      | Eq => path_compare p' q'
      | c => c
      end
  end.

Definition path_lt (p q : path) : Prop := path_compare p q = Lt.
Definition path_le (p q : path) : Prop := path_compare p q ≠ Gt.

Global Instance path_le_dec : RelDecision path_le.
Proof. intros p q. unfold path_le. solve_decision. Defined.

(** [sorted(set(xs))] on paths. *)
Definition sorted_set (xs : list path) : list path :=
  merge_sort path_le (elements (list_to_set xs : gset path)).

(** The node at the absolute path [p], seen from a tree [t] that sits at
    [root]. *)
Definition node_at (root : path) (t : node) (p : path) : option node :=
  if decide (take (length root) p = root)
  then fs_lookup t (drop (length root) p)
  else None.

(** [p.exists()] for an absolute path, [fs] being the tree at ["/"]. *)
Definition path_exists (fs : node) (p : path) : bool :=
  bool_decide (is_Some (node_at ["/"] fs p)).

(** [(p, *p.parents)] for an absolute path: [p], then each proper prefix
    down to the anchor ["/"], longest first. *)
Definition self_and_parents (p : path) : list path :=
  (λ n, take n p) <$> reverse (seq 1 (length p)).

Fixpoint first_with_git (fs : node) (candidates : list path) : outcome path :=
  match candidates with
  | [] => Raise (Exn RuntimeError
            "Could not find repo root (no .git directory found).")
  | parent :: rest =>
      if path_exists fs (joinpath parent ".git") then Ok parent
      else first_with_git fs rest
  end.

(** [find_repo_root(start)], [p] being the resolved start directory. *)
Definition find_repo_root (fs : node) (p : path) : outcome path :=
  first_with_git fs (self_and_parents p).

(** The statements run when the module is imported. *)
Definition OUT_ROOT (REPO_ROOT : path) : path := joinpath REPO_ROOT "outputs".
Definition TABLE_DIR (REPO_ROOT : path) : path := joinpath (OUT_ROOT REPO_ROOT) "tables".
Definition FIG_DIR (REPO_ROOT : path) : path := joinpath (OUT_ROOT REPO_ROOT) "figures".

Definition import_paths (fs : node) (cwd : path) : M path :=
  REPO_ROOT ← lift (find_repo_root fs cwd);
  emit (FsMkdir (TABLE_DIR REPO_ROOT)) ;;
  emit (FsMkdir (FIG_DIR REPO_ROOT)) ;;
  mret REPO_ROOT.

Definition ignore_parts : gset string :=
  {[ "outputs"; ".git"; ".ipynb_checkpoints"; ".cache" ]}.

Definition iter_indicators_dirs (root : path) (t : node) : list path :=
  let dirs :=
    omap (λ '(p, n),
            if negb (is_dir n) then None
            else
              let parts : gset string := list_to_set p in
              if decide (parts ∩ ignore_parts ≠ ∅) then None
              else Some p)
         (rglob (String.eqb "INDICATORS") root t) in
  sorted_set dirs.

Section Resolve.

(** How a glob pattern of one component decides on a file name
    ([fnmatch]). *)
Variable fnmatch : string → string → bool.

Definition subtree (root : path) (t : node) (d : path) : node :=
  default File (node_at root t d).

Definition iter_indicator_files (pattern : string) (root : path) (t : node)
    : list path :=
  d ← iter_indicators_dirs root t;
  fst <$> rglob (fnmatch pattern) d (subtree root t d).

Definition newline : string := String "010"%char "".

Definition resolve_indicator_by_basename (basename : string) (root : path)
    (t : node) : outcome path :=
  let hits := iter_indicator_files basename root t in
  match hits with
  | [] => Raise (Exn FileNotFoundError
            ("Could not find " ++ basename ++ " under any INDICATORS folder."))
  | h :: rest =>
      if bool_decide (1 < length hits)%nat then
        let msg := String.concat newline (path_str <$> take 10 hits) in
        Raise (Exn FileExistsError
          ("Basename " ++ basename ++ " is ambiguous ("
             ++ pretty (length hits) ++ " matches). Examples:" ++ newline ++ msg))
      else Ok h
  end.

End Resolve.

(** ** plot-map_2D.py *)

(** The parameters at the top of the script.  A year or a scenario may be
    [None]. *)
Record config := mkConfig {
  cmap : string;
  pilotarea : string;
  dataset_name : string;
  indicator : string;
  start_year : option Z;
  end_year : option Z;
  hist_start_year : option Z;
  hist_end_year : option Z;
  proj_start_year : option Z;
  proj_end_year : option Z;
  scenario : option string
}.

(** EXAMPLE 1 of the script, the values it is committed with. *)
Definition example_1 : config :=
  mkConfig "viridis" "Athens" "era5-2km" "cdd"
    (Some 1989) (Some 2018) None None None None None.

(** [str(x)] and [f"{x}"] of an int or None, of a str or None. *)
Definition str_int (x : option Z) : string := from_option pretty "None" x.
Definition str_str (x : option string) : string := default "None" x.

(** [s.lower()] on ASCII letters. *)
Definition lower_ascii (c : ascii) : ascii :=
  let n := nat_of_ascii c in
  if (65 <=? n)%nat && (n <=? 90)%nat then ascii_of_nat (n + 32) else c.

Fixpoint lower (s : string) : string :=
  match s with
  | EmptyString => EmptyString
  | String c s' => String (lower_ascii c) (lower s')
  end.

Definition construct_filename (pilotarea dataset_name indicator : string)
    (start_year end_year hist_start_year hist_end_year
     proj_start_year proj_end_year : option Z) (scenario : option string)
    : outcome string :=
  let pilot_lower := lower pilotarea in
  if bool_decide (dataset_name ∈ ["cerra"; "eobs"]) then
    let period_start := str_int start_year in
    let period_end := str_int end_year in
    Ok (pilot_lower ++ "_" ++ dataset_name ++ "_" ++ indicator ++ "_eu_"
          ++ period_start ++ "_" ++ period_end ++ ".nc")
  else if bool_decide (dataset_name = "era5-2km") then
    let period_start := str_int start_year in
    let period_end := str_int end_year in
    Ok (pilot_lower ++ "_" ++ dataset_name ++ "_" ++ indicator ++ "_"
          ++ period_start ++ period_end ++ ".nc")
  else if bool_decide (dataset_name = "eu-cordex-11") then
    Ok (pilot_lower ++ "_" ++ dataset_name ++ "_" ++ indicator ++ "_"
          ++ str_int hist_start_year ++ "-" ++ str_int hist_end_year ++ "_"
          ++ str_int proj_start_year ++ "-" ++ str_int proj_end_year ++ "_"
          ++ str_str scenario ++ ".nc")
  else
    Raise (Exn ValueError
      ("Unknown dataset '" ++ dataset_name
         ++ "'. Supported: cerra, eobs, era5-2km, eu-cordex-11")).

Definition get_title_and_savefig (pilotarea dataset_name var_name : string)
    (start_year end_year hist_start_year hist_end_year
     proj_start_year proj_end_year : option Z) (scenario : option string)
    : string * string :=
  if bool_decide (dataset_name = "eu-cordex-11") then
    let title := "Average Map of " ++ var_name ++ " from "
      ++ str_int hist_start_year ++ "-" ++ str_int hist_end_year ++ " & "
      ++ str_int proj_start_year ++ "-" ++ str_int proj_end_year ++ newline
      ++ "over " ++ pilotarea ++ " in " ++ dataset_name
      ++ " (" ++ str_str scenario ++ ")" in
    let savefig_name := pilotarea ++ "_" ++ var_name ++ "_" ++ dataset_name
      ++ "_" ++ str_int hist_start_year ++ "-" ++ str_int hist_end_year
      ++ "_" ++ str_int proj_start_year ++ "-" ++ str_int proj_end_year
      ++ "_" ++ str_str scenario ++ ".png" in
    (title, savefig_name)
  else
    let title := "Average Map of " ++ var_name ++ " from "
      ++ str_int start_year ++ " to " ++ str_int end_year ++ newline
      ++ "over " ++ pilotarea ++ " in " ++ dataset_name in
    let savefig_name := pilotarea ++ "_" ++ var_name ++ "_" ++ dataset_name
      ++ "_" ++ str_int start_year ++ "-" ++ str_int end_year ++ ".png" in
    (title, savefig_name).

(** A variable of the NetCDF dataset: its dtype class, its shape and its
    values in C order. *)
Record NcVariable := mkVariable {
  is_timedelta : bool;
  shape : list Z;
  var_values : list cell
}.

Record Dataset := mkDataset {
  data_vars : list (string * NcVariable);
  coords : list (string * NcVariable)
}.

(** A row of the shapefile's table and the table itself. *)
Record feature := mkFeature {
  props : gmap string string;
  geometry : list (Q * Q)
}.

Record GeoDataFrame := mkGdf {
  columns : list string;
  rows : list feature
}.

(** What the script takes from outside: the files as the libraries would
    read them, and the numpy routines it does not spell out. *)
Record world := mkWorld {
  open_dataset : string → outcome Dataset;
  read_file : string → outcome GeoDataFrame;
  to_crs : GeoDataFrame → Z → outcome GeoDataFrame;
  timedelta_days : list cell → list cell;
  nanpercentile : list cell → Z → cell
}.

Definition FUA_SHP : string :=
  "/work/cmcc/gg21021/shapefile/UI-boundaries-FUA/FUA_Boundaries.shp".

Definition base (pilotarea : string) : string :=
  "/work/cmcc/gf27821/CARMINE/CARMINE-T2.4/" ++ pilotarea ++ "/INDICATORS".

Definition var_name : string := "CDD".

(** [ds[key]]. *)
Definition ds_getitem (ds : Dataset) (key : string) : M NcVariable :=
  match list_find (λ v, v.1 = key) (data_vars ds ++ coords ds)%list with
  | Some (_, v) => mret v.2
  | None => raise (Exn KeyError ("'" ++ key ++ "'"))
  end.

(** [repr] of a list of strings. *)
Definition repr_list (xs : list string) : string :=
  "[" ++ String.concat ", " ((λ x, "'" ++ x ++ "'") <$> xs) ++ "]".

(** [arr[mask]] with a boolean mask of the array's own shape, both held
    flat.  (A mask of another shape is told from the array by its size
    only; where the shapes matter, they are compared in the statement.) *)
Definition mask_select (arr : list cell) (mask : list bool) : M (list cell) :=
  if decide (length arr = length mask) then
    mret (omap (λ xm : cell * bool, if xm.2 then Some xm.1 else None)
               (zip arr mask))
  else raise (Exn IndexError "boolean index did not match indexed array").

(** [arr.min()] and [arr.max()]: NaN propagates, an empty array raises. *)
Definition np_reduce (pick : Q → Q → Q) (arr : list cell) : M cell :=
  match arr with
  | [] => raise (Exn ValueError "zero-size array to reduction operation")
  | x :: rest => mret (foldl (lift2 pick) x rest)
  end.
Definition np_min := np_reduce (λ a b, if Qle_bool a b then a else b).
Definition np_max := np_reduce (λ a b, if Qle_bool a b then b else a).

(** [np.where(lon > 180, lon - 360, lon)]. *)
Definition wrap_lon (lon : list cell) : list cell :=
  (λ x, xr_where (cgt x 180%Q) (csub x (Some 360%Q)) x) <$> lon.

(** What the first part of the script hands to the plotting part. *)
Record loaded := mkLoaded {
  lon_2d : list cell;
  lat_2d : list cell;
  grid : list cell;
  lon_valid : list cell;
  lat_valid : list cell
}.

(** Lines 76-124: build the file name, open the dataset, take the variable
    and the coordinates, compute the extent. *)
Definition load_data (cfg : config) (w : world) : M loaded :=
  filename ← lift (construct_filename (pilotarea cfg) (dataset_name cfg)
                     (indicator cfg) (start_year cfg) (end_year cfg)
                     (hist_start_year cfg) (hist_end_year cfg)
                     (proj_start_year cfg) (proj_end_year cfg) (scenario cfg));
  let file := base (pilotarea cfg) ++ "/" ++ filename in
  emit (Print (Text ("Loading file: " ++ file))) ;;
  emit (FsRead file) ;;
  ds ← lift (open_dataset w file);
  emit (Print (Text ("Dataset variables: " ++ repr_list (fst <$> data_vars ds)))) ;;
  emit (Print (Text ("Dataset coords: " ++ repr_list (fst <$> coords ds)))) ;;
  var ← ds_getitem ds var_name;
  lon ← ds_getitem ds "lon";
  lat ← ds_getitem ds "lat";
  emit (Print (VarShape var_name (shape var))) ;;
  emit (Print (LonLatShape (shape lon) (shape lat))) ;;
  let data :=
    if is_timedelta var then timedelta_days w (var_values var)
    else var_values var in
  let non_nan_mask := (λ x : cell, bool_decide (is_Some x)) <$> data in
  lon_valid ← mask_select (var_values lon) non_nan_mask;
  lat_valid ← mask_select (var_values lat) non_nan_mask;
  let lon_valid := wrap_lon lon_valid in
  lon_min ← np_min lon_valid;
  lon_max ← np_max lon_valid;
  lat_min ← np_min lat_valid;
  lat_max ← np_max lat_valid;
  let lon_pad := cmul (csub lon_max lon_min) (Some 0.1%Q) in
  let lat_pad := cmul (csub lat_max lat_min) (Some 0.1%Q) in
  let lon_min := csub lon_min lon_pad in
  let lon_max := cadd lon_max lon_pad in
  let lat_min := csub lat_min lat_pad in
  let lat_max := cadd lat_max lat_pad in
  emit (Print (DataExtent lon_min lon_max lat_min lat_max)) ;;
  mret (mkLoaded (var_values lon) (var_values lat) data lon_valid lat_valid).

(** [fua_gdf[fua_gdf["FUA_NAME"] == "Athina"]]. *)
Definition select_fua (fua_gdf : GeoDataFrame) : M GeoDataFrame :=
  if bool_decide ("FUA_NAME" ∈ columns fua_gdf) then
    mret (mkGdf (columns fua_gdf)
            (filter (λ r, props r !! "FUA_NAME" = Some "Athina") (rows fua_gdf)))
  else raise (Exn KeyError "'FUA_NAME'").

(** Every class of [exn_class] derives from [Exception]. *)
Definition is_Exception (e : exn) : bool := true.

(** Lines 126-135: the FUA block. *)
Definition load_fua (pilotarea : string) (w : world)
    : M (option GeoDataFrame * bool) :=
  try_except
    (emit (FsRead FUA_SHP) ;;
     gdf ← lift (read_file w FUA_SHP);
     fua_gdf ← lift (to_crs w gdf 4326);
     fua_shape ← select_fua fua_gdf;
     let fua_found := negb (bool_decide (rows fua_shape = [])) in
     emit (Print (Text ("FUA '" ++ pilotarea ++ "': "
                          ++ (if fua_found then "Found" else "Not found")))) ;;
     mret (Some fua_shape, fua_found))
    is_Exception
    (λ e,
       emit (Print (Text ("Warning: Could not load FUA shapefile: " ++ exn_msg e))) ;;
       mret (None, false)).

(** Lines 137-168: draw the map, the FUA boundary if there is one, and save
    the figure. *)
Definition draw_and_save (cfg : config) (w : world) (d : loaded)
    (fua : option GeoDataFrame * bool) : M unit :=
  let '(fua_shape, fua_found) := fua in
  emit (Plt (figure 12 10)) ;;
  emit (Plt axes_PlateCarree) ;;
  emit (Plt gridlines) ;;
  let lon_plot_2d := wrap_lon (lon_2d d) in
  emit (Plt (pcolormesh lon_plot_2d (lat_2d d) (grid d) (cmap cfg)
               (nanpercentile w (grid d) 5) (nanpercentile w (grid d) 95))) ;;
  (if fua_found then
     match fua_shape with
     | Some shp =>
         emit (Plt (boundary_plot (geometry <$> rows shp))) ;;
         emit (Print (TotalBounds (geometry <$> rows shp)))
     | None =>
         raise (Exn (OtherException "AttributeError")
                  "'NoneType' object has no attribute 'boundary'")
     end
   else mret tt) ;;
  emit (Plt colorbar) ;;
  emit (Plt (set_label (var_name ++ " (days)"))) ;;
  x0 ← np_min (lon_valid d);
  x1 ← np_max (lon_valid d);
  y0 ← np_min (lat_valid d);
  y1 ← np_max (lat_valid d);
  emit (Plt (set_extent x0 x1 y0 y1)) ;;
  let '(title_, savefig_name) :=
    get_title_and_savefig (pilotarea cfg) (dataset_name cfg) var_name
      (start_year cfg) (end_year cfg) (hist_start_year cfg) (hist_end_year cfg)
      (proj_start_year cfg) (proj_end_year cfg) (scenario cfg) in
  emit (Plt (title title_)) ;;
  emit (Plt (xlabel "Longitude [degrees]")) ;;
  emit (Plt (ylabel "Latitude [degrees]")) ;;
  emit (Plt (savefig savefig_name 300)) ;;
  emit (Plt show) ;;
  emit (Print (Text ("Map saved as: " ++ savefig_name))).

(** The script, top to bottom. *)
Definition plot_map_2D (cfg : config) (w : world) : M unit :=
  d ← load_data cfg w;
  fua ← load_fua (pilotarea cfg) w;
  draw_and_save cfg w d fua.

(** ** Notions the properties are stated with *)

(** The daily degree-day value as the specification words it, on real
    temperatures: the four branches, tested in this order. *)
Definition D_spec (tbase tmax tmin : Q) : Q :=
  if Qle_bool tmax tbase then 0
  else if Qle_bool tbase tmin then (tmax + tmin) / 2 - tbase
  else if negb (Qle_bool ((tmax + tmin) / 2) tbase)
       then (tmax - tbase) / 2 + (tbase - tmin) / 4
  else (tmax - tbase) / 4.

(** A daily record: the day, its maximum and its minimum temperature. *)
Definition daily : Type := Z * Q * Q.
Definition daily_day (r : daily) : Z := r.1.1.
Definition daily_tmax (r : daily) : Q := r.1.2.
Definition daily_tmin (r : daily) : Q := r.2.

(** The sum of [D_spec] over the days of [days] that fall in year [y]. *)
Definition gdd_spec (year_of : Z → Z) (tbase : Q) (days : list daily) (y : Z) : Q :=
  foldr Qplus 0%Q
    ((λ r, D_spec tbase (daily_tmax r) (daily_tmin r))
       <$> filter (λ r, year_of (daily_day r) = y) days).

(** [v] is the largest (smallest) real value among [xs], NaN if there is
    none. *)
Definition is_nanmax (v : cell) (xs : list cell) : Prop :=
  match v with
  | Some m => Some m ∈ xs ∧ ∀ q, Some q ∈ xs → (q <= m)%Q
  | None => ∀ q, Some q ∉ xs
  end.

Definition is_nanmin (v : cell) (xs : list cell) : Prop :=
  match v with
  | Some m => Some m ∈ xs ∧ ∀ q, Some q ∈ xs → (m <= q)%Q
  | None => ∀ q, Some q ∉ xs
  end.

(** What [hot_spell_frequency] does for a key of the table. *)
Definition spell_run
    (xc_hot_spell_frequency : DataArray Z → string → Z → string → DataArray Z)
    (tasmax : DataArray timestamp) (freq : string) (s : spell_type)
    : M (DataArray Z) :=
  let da := xc_hot_spell_frequency (resample_D nanmax tasmax)
              (thresh s) (window s) freq in
  ([Resample "D" "max"; Xclim "hot_spell_frequency"],
   Ok (mkDataArray (<["long_name" := name s]> (attrs da)) (data da))).

(** [n] is the node reached from [t] by the parts [rel]. *)
Inductive at_path : node → path → node → Prop :=
  | at_here t : at_path t [] t
  | at_down entries c rest child n :
      (c, child) ∈ entries →
      at_path child rest n →
      at_path (Dir entries) (c :: rest) n.

(** Induction on a directory tree, the hypothesis given for every entry of
    a directory. *)
Fixpoint node_nested_ind (P : node → Prop) (HFile : P File)
    (HDir : ∀ entries, Forall (λ e, P e.2) entries → P (Dir entries))
    (t : node) : P t :=
  match t with
  | File => HFile
  | Dir entries =>
      HDir entries
        ((fix go (es : list (string * node)) : Forall (λ e, P e.2) es :=
            match es return Forall (λ e, P e.2) es with
            | [] => List.Forall_nil _
            | e :: es' =>
                List.Forall_cons _ e es'
                  (node_nested_ind P HFile HDir e.2) (go es')
            end) entries)
  end.

(** The files a log writes and the directories it creates, the files it
    reads. *)
Definition written (l : list event) : list string :=
  omap (λ ev, match ev with
              | Plt (savefig fname _) => Some fname
              | FsMkdir d => Some (path_str d)
              | _ => None
              end) l.

Definition read_files (l : list event) : list string :=
  omap (λ ev, match ev with FsRead f => Some f | _ => None end) l.

(** An operation on the outcome of a library call recovers from a failure
    if, for some exception of the call, it ends normally all the same. *)
Definition recovers {A B} (op : outcome A → M B) : Prop :=
  ∃ e b, result (op (Raise e)) = Ok b.

(** The name of the PNG file, as [get_title_and_savefig] gives it for the
    script's parameters. *)
Definition savefig_name (cfg : config) : string :=
  (get_title_and_savefig (pilotarea cfg) (dataset_name cfg) var_name
     (start_year cfg) (end_year cfg) (hist_start_year cfg) (hist_end_year cfg)
     (proj_start_year cfg) (proj_end_year cfg) (scenario cfg)).2.

Fixpoint last_char (s : string) : option ascii :=
  match s with
  | EmptyString => None
  | String c EmptyString => Some c
  | String _ s' => last_char s'
  end.

(** An event that writes nothing and reads, if anything, a file whose name
    does not end in the [g] of [.png]. *)
Definition only_reads (ev : event) : Prop :=
  match ev with
  | FsRead f => last_char f ≠ Some "g"%char
  | Plt (savefig _ _) | FsMkdir _ => False
  | _ => True
  end.

(** ** Sample inputs *)

(** A calendar of 365-day years, and the unit conversion seen by an array
    that is in the target unit already. *)
Definition noleap_year (d : Z) : Z := d / 365.
Definition same_units (da : DataArray Z) (target : string) : DataArray Z := da.

(** Two days of half-daily temperatures around new year, in degC. *)
Definition sample_tasmax : DataArray timestamp :=
  mkDataArray {[ "units" := "degC" ]}
    [((364, 0), Some 20%Q); ((364, 43200), Some 22%Q);
     ((365, 0), Some 12%Q); ((365, 43200), Some 11%Q)].

Definition sample_tasmin : DataArray timestamp :=
  mkDataArray {[ "units" := "degC" ]}
    [((364, 0), Some 8%Q); ((364, 43200), Some 9%Q);
     ((365, 0), Some 5%Q); ((365, 43200), Some 6%Q)].

Definition sample_days : list daily :=
  [(364, 22%Q, 8%Q); (365, 12%Q, 5%Q)].

(** xclim stand-ins that leave the daily series as it is, and a world in
    which the dataset opens and the shapefile load ends as [fua]. *)
Definition echo_spell (da : DataArray Z) (thresh : string) (window : Z)
    (freq : string) : DataArray Z := da.

Definition sample_dataset : Dataset :=
  mkDataset
    [("CDD", mkVariable false [1; 2; 2] [Some 3%Q; None; Some 4%Q; Some 1%Q])]
    [("lon", mkVariable false [2; 2] [Some 23%Q; Some 24%Q; Some 23%Q; Some 24%Q]);
     ("lat", mkVariable false [2; 2] [Some 37%Q; Some 37%Q; Some 38%Q; Some 38%Q])].

Definition athina : feature :=
  mkFeature {[ "FUA_NAME" := "Athina" ]} [(23#1, 37#1)%Q; (24#1, 38#1)%Q].
Definition birmingham : feature :=
  mkFeature {[ "FUA_NAME" := "Birmingham" ]} [(-2#1, 52#1)%Q; (-1#1, 53#1)%Q].

Definition sample_gdf : GeoDataFrame := mkGdf ["FUA_NAME"] [athina; birmingham].

Definition sample_world (fua : outcome GeoDataFrame) : world :=
  mkWorld (λ _, Ok sample_dataset) (λ _, fua) (λ gdf _, Ok gdf)
          (λ xs, xs) (λ _ _, None).

(** A repository in which one INDICATORS directory lies inside another one,
    with a single file below them. *)
Definition repo_root : path := ["/"; "repo"].

Definition nested_tree : node :=
  Dir [(".git", Dir []);
       ("Athens",
        Dir [("INDICATORS",
              Dir [("era5",
                    Dir [("INDICATORS", Dir [("athens_cdd.nc", File)])])])])].

Definition nested_file : path :=
  ["/"; "repo"; "Athens"; "INDICATORS"; "era5"; "INDICATORS"; "athens_cdd.nc"].

(** ** The remaining indicators *)


Definition cwd
    (maximum_consecutive_wet_days : DataArray Z → string → string → DataArray Z)
    (pr : DataArray timestamp) (thresh freq : string) : DataArray Z :=
  let pr_daily := resample_D nanmean pr in
  maximum_consecutive_wet_days pr_daily thresh freq.




(** [txx] and [txn]: daily maxima, the xclim indicator, then degC. *)
Definition txx (tx_max : DataArray Z → string → DataArray Z)
    (convert_units_to : DataArray Z → string → DataArray Z)
    (tasmax : DataArray timestamp) (freq : string) : DataArray Z :=
  let tasmax_daily := resample_D nanmax tasmax in
  let da := tx_max tasmax_daily freq in
  convert_units_to da "degC".

Definition txn (tx_min : DataArray Z → string → DataArray Z)
    (convert_units_to : DataArray Z → string → DataArray Z)
    (tasmax : DataArray timestamp) (freq : string) : DataArray Z :=
  let tasmax_daily := resample_D nanmax tasmax in
  let da := tx_min tasmax_daily freq in
  convert_units_to da "degC".


(** ** Further notions *)

(** The series has one sample per day, on consecutive days from [lo] on, in
    the order of time. *)
Definition daily_from (lo : Z) (da : DataArray timestamp) : Prop :=
  day_of <$> time_axis da = seqZ lo (Z.of_nat (length (data da))).

(** The series with its time stamps cut down to their days. *)
Definition on_days (da : DataArray timestamp) : DataArray Z :=
  mkDataArray (attrs da) ((λ s, (day_of s.1, s.2)) <$> data da).

(** Equality of cells up to the equality of rationals. *)
Definition cell_eqv (x y : cell) : Prop :=
  match x, y with
  | Some a, Some b => (a == b)%Q
  | None, None => True
  | _, _ => False
  end.

(** A tree in which every directory names each of its entries once. *)
Fixpoint wf_node (t : node) : Prop :=
  match t with
  | File => True
  | Dir entries =>
      NoDup (fst <$> entries)
      ∧ (fix all (es : list (string * node)) : Prop :=
           match es with
           | [] => True
           | e :: es' => wf_node e.2 ∧ all es'
           end) entries
  end.

(** [p] is a proper ancestor of [q]. *)
Definition strict_prefix (p q : path) : Prop :=
  ∃ rel, rel ≠ [] ∧ q = (p ++ rel)%list.

(** The plotting calls of a log. *)
Definition plt_calls (l : list event) : list plt_call :=
  omap (λ ev, match ev with Plt c => Some c | _ => None end) l.

Definition is_boundary_plot (c : plt_call) : bool :=
  match c with boundary_plot _ => true | _ => false end.

(** [t'] is [t] with the entries of its directories, at any depth, listed
    in another order. *)
Inductive relisted : node → node → Prop :=
  | relisted_file : relisted File File
  | relisted_dir es es' es'' :
      Forall2 (λ e e', e.1 = e'.1 ∧ relisted e.2 e'.2) es es' →
      es' ≡ₚ es'' →
      relisted (Dir es) (Dir es'').

(** What [iter_indicators_dirs] looks at in a hit of [rglob]. *)
Definition hit_kind (hit : path * node) : path * bool := (hit.1, is_dir hit.2).

(** An event that is no plotting call. *)
Definition no_plt (ev : event) : Prop :=
  match ev with Plt _ => False | _ => True end.

(** ** The daily extremes, said of the samples themselves *)

(** The order of time. *)
Definition ts_le (t1 t2 : timestamp) : Prop :=
  (t1.1 < t2.1 ∨ (t1.1 = t2.1 ∧ t1.2 ≤ t2.2))%Z.

#[global] Instance ts_le_dec : RelDecision ts_le.
Proof. intros t1 t2. unfold ts_le. apply _. Defined.

(** A series as [resample] takes it: it has a sample, and its time stamps
    never step back.  (On an empty series and on one that is out of order
    the library raises ValueError; [resample_D] stands for the result on
    the series it takes.) *)
Definition ordered_series (da : DataArray timestamp) : Prop :=
  data da ≠ [] ∧ StronglySorted ts_le (time_axis da).

(** [q] is a real sample of [da] taken on day [d]. *)
Definition sample_on (da : DataArray timestamp) (d : Z) (q : Q) : Prop :=
  ∃ sec : Z, ((d, sec), Some q) ∈ data da.

(** [daily] is [da] brought to days by an extreme: it keeps the attributes
    of [da]; its days are those from the first to the last day of [da],
    each once and in ascending order; and the value of a day is a real
    sample of that day that every real sample of that day is [within], or
    NaN when the day has no real sample. *)
Definition daily_extreme (within : Q → Q → Prop)
    (da : DataArray timestamp) (daily : DataArray Z) : Prop :=
  attrs daily = attrs da
  ∧ StronglySorted Z.lt (time_axis daily)
  ∧ (∀ d, d ∈ time_axis daily
          ↔ ∃ t1 t2, t1 ∈ time_axis da ∧ t2 ∈ time_axis da
                     ∧ (day_of t1 ≤ d ≤ day_of t2)%Z)
  ∧ ∀ d v, (d, v) ∈ data daily →
      match v with
      | Some m => sample_on da d m ∧ ∀ q, sample_on da d q → within q m
      | None => ∀ q, ¬ sample_on da d q
      end.

(** A series with two samples on each of two days. *)
Definition two_days : DataArray timestamp :=
  mkDataArray ∅
    [((0, 0), Some 18%Q); ((0, 43200), Some 22%Q);
     ((1, 0), Some 12%Q); ((1, 43200), Some 10%Q)].

(** ** The steps of the plot *)

(** The title of the figure, as [get_title_and_savefig] gives it for the
    script's parameters. *)
Definition plot_title (cfg : config) : string :=
  (get_title_and_savefig (pilotarea cfg) (dataset_name cfg) var_name
     (start_year cfg) (end_year cfg) (hist_start_year cfg) (hist_end_year cfg)
     (proj_start_year cfg) (proj_end_year cfg) (scenario cfg)).1.

(** What is to be seen of the plotting part of the script, in the order of
    its lines: the map itself, the boundary overlay of a shape, and the
    steps from the colour bar to the last line printed, with the extent
    the axes are set to. *)
Definition map_steps (cfg : config) (w : world) (d : loaded) : list event :=
  [Plt (figure 12 10);
   Plt axes_PlateCarree;
   Plt gridlines;
   Plt (pcolormesh (wrap_lon (lon_2d d)) (lat_2d d) (grid d) (cmap cfg)
          (nanpercentile w (grid d) 5) (nanpercentile w (grid d) 95))].

Definition overlay_steps (shp : GeoDataFrame) : list event :=
  [Plt (boundary_plot (geometry <$> rows shp));
   Print (TotalBounds (geometry <$> rows shp))].

Definition later_steps (cfg : config) (lon_min lon_max lat_min lat_max : cell)
    : list event :=
  [Plt colorbar;
   Plt (set_label "CDD (days)");
   Plt (set_extent lon_min lon_max lat_min lat_max);
   Plt (title (plot_title cfg));
   Plt (xlabel "Longitude [degrees]");
   Plt (ylabel "Latitude [degrees]");
   Plt (savefig (savefig_name cfg) 300);
   Plt show;
   Print (Text ("Map saved as: " ++ savefig_name cfg))].

(** ** Shapes *)

(** The shape of [np.squeeze(a)]: the axes of length 1 are dropped. *)
Definition squeeze (shape : list Z) : list Z := filter (λ n, n ≠ 1) shape.

(** The number of elements of an array of the given shape. *)
Definition size_of (shape : list Z) : Z := foldr Z.mul 1 shape.

(** The values of a variable are as many as its shape says. *)
Definition well_shaped (v : NcVariable) : Prop :=
  Z.of_nat (length (var_values v)) = size_of (shape v).

(** * Properties *)

(** ** Arithmetic on cells *)

Ltac q_arith :=
  unfold Qdiv in *;
  change (/ 2)%Q with (1 # 2)%Q in *;
  change (/ 4)%Q with (1 # 4)%Q in *;
  lra.

Lemma Qle_bool_false (x y : Q) : Qle_bool x y = false → (y < x)%Q.
Proof.
  intros H. apply Qnot_le_lt. intros Hle.
  apply Qle_bool_iff in Hle. congruence.
Qed.

(** Case analysis on every comparison in the goal, each turned into the
    inequality it decides. *)
Ltac q_cases :=
  repeat match goal with
  | |- context [Qle_bool ?u ?v] =>
      let E := fresh "E" in
      destruct (Qle_bool u v) eqn:E;
      [apply Qle_bool_iff in E | apply Qle_bool_false in E]; simpl
  end.

Lemma baker_D_real tbase tmax tmin :
  ∃ d, baker_D tbase (Some tmax) (Some tmin) = Some d
       ∧ (d == D_spec tbase tmax tmin)%Q.
Proof.
  unfold baker_D, D_spec, xr_where, cle, cge, cgt, cadd, csub, cmul, cdiv, lift2.
  destruct (Qle_bool tmax tbase); [by eexists|].
  destruct (Qle_bool tbase tmin).
  { eexists; split; [reflexivity|]. field. }
  destruct (Qle_bool ((tmax + tmin) / 2) tbase); simpl; by eexists.
Qed.

Lemma baker_D_nonneg tbase x n d :
  baker_D tbase x n = Some d → (0 <= d)%Q.
Proof.
  unfold baker_D, xr_where, cle, cge, cgt, cadd, csub, cmul, cdiv, lift2.
  destruct x as [a|], n as [b|]; simpl; q_cases; intros [= <-]; q_arith.
Qed.

Lemma nansum_nonneg (xs : list cell) :
  Forall (λ c, ∀ q, c = Some q → (0 <= q)%Q) xs → (0 <= nansum xs)%Q.
Proof.
  induction 1 as [|c xs Hc _ IH]; simpl; [lra|].
  destruct c as [q|]; [|done].
  specialize (Hc q eq_refl). lra.
Qed.

Lemma nanmax_spec (xs : list cell) : is_nanmax (nanmax xs) xs.
Proof.
  induction xs as [|x xs IH]; simpl.
  { intros q Hq. by apply elem_of_nil in Hq. }
  destruct x as [a|].
  - destruct (nanmax xs) as [b|]; simpl in *.
    + destruct IH as [Hin Hub].
      destruct (Qle_bool a b) eqn:E;
        [apply Qle_bool_iff in E | apply Qle_bool_false in E].
      * split; [by right|].
        intros q [[= ->]|Hq]%elem_of_cons; [done | by apply Hub].
      * split; [by left|].
        intros q [[= ->]|Hq]%elem_of_cons; [lra|].
        specialize (Hub q Hq). lra.
    + split; [by left|].
      intros q [[= ->]|Hq]%elem_of_cons; [lra | by apply IH in Hq].
  - destruct (nanmax xs) as [b|]; simpl in *.
    + destruct IH as [Hin Hub]. split; [by right|].
      intros q [[=]|Hq]%elem_of_cons. by apply Hub.
    + intros q [[=]|Hq]%elem_of_cons. by apply IH in Hq.
Qed.

Lemma nanmin_spec (xs : list cell) : is_nanmin (nanmin xs) xs.
Proof.
  induction xs as [|x xs IH]; simpl.
  { intros q Hq. by apply elem_of_nil in Hq. }
  destruct x as [a|].
  - destruct (nanmin xs) as [b|]; simpl in *.
    + destruct IH as [Hin Hlb].
      destruct (Qle_bool a b) eqn:E;
        [apply Qle_bool_iff in E | apply Qle_bool_false in E].
      * split; [by left|].
        intros q [[= ->]|Hq]%elem_of_cons; [lra|].
        specialize (Hlb q Hq). lra.
      * split; [by right|].
        intros q [[= ->]|Hq]%elem_of_cons; [lra | by apply Hlb].
    + split; [by left|].
      intros q [[= ->]|Hq]%elem_of_cons; [lra | by apply IH in Hq].
  - destruct (nanmin xs) as [b|]; simpl in *.
    + destruct IH as [Hin Hlb]. split; [by right|].
      intros q [[=]|Hq]%elem_of_cons. by apply Hlb.
    + intros q [[=]|Hq]%elem_of_cons. by apply IH in Hq.
Qed.

Lemma resample_D_bins (agg : list cell → cell) (da : DataArray timestamp) :
  Forall (λ dv, dv.2 = agg (bin day_of dv.1 da)) (data (resample_D agg da)).
Proof.
  unfold resample_D; simpl.
  destruct (day_of <$> time_axis da) as [|d ds]; [constructor|].
  apply Forall_fmap, Forall_forall. by intros k _.
Qed.

Lemma foldr_min_spec (d : Z) (ds : list Z) :
  foldr Z.min d ds ∈ d :: ds ∧ ∀ x, x ∈ d :: ds → (foldr Z.min d ds ≤ x)%Z.
Proof.
  induction ds as [|y ds [Hin Hle]]; simpl.
  { split; [by left|]. by intros x ->%list_elem_of_singleton. }
  split.
  - destruct (Z.min_spec y (foldr Z.min d ds)) as [[_ ->]|[_ ->]].
    + right. by left.
    + apply elem_of_cons in Hin as [->|Hin]; [by left|]. right. by right.
  - intros x [->|[->|Hx]%elem_of_cons]%elem_of_cons.
    + specialize (Hle d (ltac:(by left))). lia.
    + lia.
    + specialize (Hle x (ltac:(by right))). lia.
Qed.

Lemma foldr_max_spec (d : Z) (ds : list Z) :
  foldr Z.max d ds ∈ d :: ds ∧ ∀ x, x ∈ d :: ds → (x ≤ foldr Z.max d ds)%Z.
Proof.
  induction ds as [|y ds [Hin Hle]]; simpl.
  { split; [by left|]. by intros x ->%list_elem_of_singleton. }
  split.
  - destruct (Z.max_spec y (foldr Z.max d ds)) as [[_ ->]|[_ ->]].
    + apply elem_of_cons in Hin as [->|Hin]; [by left|]. right. by right.
    + right. by left.
  - intros x [->|[->|Hx]%elem_of_cons]%elem_of_cons.
    + specialize (Hle d (ltac:(by left))). lia.
    + lia.
    + specialize (Hle x (ltac:(by right))). lia.
Qed.

Lemma resample_D_axis (agg : list cell → cell) (da : DataArray timestamp) :
  time_axis (resample_D agg da)
  = match day_of <$> time_axis da with
    | [] => []
    | d :: ds => seqZ (foldr Z.min d ds)
                   (foldr Z.max d ds - foldr Z.min d ds + 1)
    end.
Proof.
  unfold time_axis at 1, resample_D; simpl.
  destruct (day_of <$> time_axis da) as [|d ds]; [done|].
  rewrite <-list_fmap_compose. apply list_fmap_id.
Qed.

Lemma seqZ_ascending (n : nat) (m : Z) :
  StronglySorted Z.lt (seqZ m (Z.of_nat n)).
Proof.
  revert m. induction n as [|n IH]; intros m.
  { rewrite seqZ_nil by lia. constructor. }
  rewrite seqZ_cons by lia.
  replace (Z.pred (Z.of_nat (S n))) with (Z.of_nat n) by lia.
  constructor; [apply IH|].
  apply Forall_forall. intros k Hk%elem_of_seqZ. lia.
Qed.

(** The days [resample_D] gives: each once, ascending, from the first to
    the last day of the series. *)
Lemma resample_D_days (agg : list cell → cell) (da : DataArray timestamp) :
  StronglySorted Z.lt (time_axis (resample_D agg da))
  ∧ ∀ d, d ∈ time_axis (resample_D agg da)
         ↔ ∃ t1 t2, t1 ∈ time_axis da ∧ t2 ∈ time_axis da
                    ∧ (day_of t1 ≤ d ≤ day_of t2)%Z.
Proof.
  rewrite resample_D_axis.
  destruct (day_of <$> time_axis da) as [|d0 ds] eqn:Hdays.
  { split; [constructor|]. intros d. split; [by intros ?%elem_of_nil|].
    intros (t1 & _ & Ht1 & _).
    apply (list_elem_of_fmap_2 day_of) in Ht1. rewrite Hdays in Ht1.
    by apply elem_of_nil in Ht1. }
  destruct (foldr_min_spec d0 ds) as [Hm1 Hm2].
  destruct (foldr_max_spec d0 ds) as [HM1 HM2].
  split.
  - specialize (HM2 _ Hm1).
    replace (foldr Z.max d0 ds - foldr Z.min d0 ds + 1)%Z
      with (Z.of_nat (Z.to_nat (foldr Z.max d0 ds - foldr Z.min d0 ds + 1)))
      by lia.
    apply seqZ_ascending.
  - intros d. rewrite elem_of_seqZ. split.
    + intros Hd. rewrite <-Hdays in Hm1, HM1.
      apply list_elem_of_fmap in Hm1 as (t1 & Ht1 & Hin1).
      apply list_elem_of_fmap in HM1 as (t2 & Ht2 & Hin2).
      exists t1, t2. split_and!; [done|done|lia|lia].
    + intros (t1 & t2 & Hin1 & Hin2 & Hle).
      apply (list_elem_of_fmap_2 day_of) in Hin1, Hin2.
      rewrite Hdays in Hin1, Hin2.
      specialize (Hm2 _ Hin1). specialize (HM2 _ Hin2). lia.
Qed.

(** The real values of a day's bin are the real samples of that day. *)
Lemma bin_sample_on (da : DataArray timestamp) (d : Z) (q : Q) :
  Some q ∈ bin day_of d da ↔ sample_on da d q.
Proof.
  unfold bin, sample_on. rewrite list_elem_of_fmap. split.
  - intros ([[d' sec] c] & Hc & [Hd Hin]%list_elem_of_filter).
    simpl in *. subst. by exists sec.
  - intros (sec & Hin). exists ((d, sec), Some q). split; [done|].
    by apply list_elem_of_filter.
Qed.

Lemma resample_D_nanmax (da : DataArray timestamp) :
  daily_extreme (λ q m, (q <= m)%Q) da (resample_D nanmax da).
Proof.
  destruct (resample_D_days nanmax da) as [Hsorted Hdays].
  split_and!; [done|done|done|].
  intros d v Hin.
  pose proof (resample_D_bins nanmax da) as Hbins.
  rewrite Forall_forall in Hbins. specialize (Hbins _ Hin). simpl in Hbins.
  pose proof (nanmax_spec (bin day_of d da)) as Hmax. rewrite <-Hbins in Hmax.
  destruct v as [m|]; simpl in Hmax.
  - destruct Hmax as [Hm Hub]. split; [by apply bin_sample_on|].
    intros q Hq. by apply Hub, bin_sample_on.
  - intros q Hq. by apply (Hmax q), bin_sample_on.
Qed.

Lemma resample_D_nanmin (da : DataArray timestamp) :
  daily_extreme (λ q m, (m <= q)%Q) da (resample_D nanmin da).
Proof.
  destruct (resample_D_days nanmin da) as [Hsorted Hdays].
  split_and!; [done|done|done|].
  intros d v Hin.
  pose proof (resample_D_bins nanmin da) as Hbins.
  rewrite Forall_forall in Hbins. specialize (Hbins _ Hin). simpl in Hbins.
  pose proof (nanmin_spec (bin day_of d da)) as Hmin. rewrite <-Hbins in Hmin.
  destruct v as [m|]; simpl in Hmin.
  - destruct Hmin as [Hm Hlb]. split; [by apply bin_sample_on|].
    intros q Hq. by apply Hlb, bin_sample_on.
  - intros q Hq. by apply (Hmin q), bin_sample_on.
Qed.

(** ** gdd_baker and tropical_nights *)

Section GddFacts.

Variable year_of : Z → Z.
Variable convert_units_to : DataArray Z → string → DataArray Z.

Lemma gdd_D_real tbase (tx tn : DataArray Z) (days : list daily) :
  data tx = (λ r, (daily_day r, Some (daily_tmax r))) <$> days →
  data tn = (λ r, (daily_day r, Some (daily_tmin r))) <$> days →
  gdd_D tbase tx tn
  = (λ r, (daily_day r,
           baker_D tbase (Some (daily_tmax r)) (Some (daily_tmin r)))) <$> days.
Proof.
  intros Hx Hn. unfold gdd_D. rewrite Hx, Hn.
  rewrite zip_with_fmap_l, zip_with_fmap_r, zip_with_diag. done.
Qed.

Lemma yearly_bin_real tbase (days : list daily) (y : Z) attrs0 :
  (nansum (bin year_of y
     (mkDataArray attrs0
        ((λ r, (daily_day r,
                baker_D tbase (Some (daily_tmax r)) (Some (daily_tmin r))))
           <$> days)))
   == gdd_spec year_of tbase days y)%Q.
Proof.
  unfold bin, gdd_spec; simpl.
  induction days as [|r days IH]; simpl; [reflexivity|].
  rewrite !filter_cons; simpl.
  destruct (decide (year_of (daily_day r) = y)) as [_|_]; simpl; [|done].
  destruct (baker_D_real tbase (daily_tmax r) (daily_tmin r)) as (d & -> & Hd).
  by rewrite Hd, IH.
Qed.

Lemma gdd_baker_freq tasmax tasmin tbase freq :
  gdd_baker year_of convert_units_to tasmax tasmin tbase freq
  = gdd_baker year_of convert_units_to tasmax tasmin tbase "YS".
Proof. reflexivity. Qed.

(** C1. On daily maxima and minima that are real numbers (in degC),
    [gdd_baker] computes each day's [D] by the four-branch rule, tested in
    the order of [D_spec], and returns, whatever [freq] is, one value per
    year: the sum of [D] over the days of that year. *)
Theorem gdd_baker_piecewise_yearly tasmax tasmin tbase freq (days : list daily) :
  data (gdd_tasmax_daily convert_units_to tasmax)
    = (λ r, (daily_day r, Some (daily_tmax r))) <$> days →
  data (gdd_tasmin_daily convert_units_to tasmin)
    = (λ r, (daily_day r, Some (daily_tmin r))) <$> days →
  Forall2 (λ dv r, dv.1 = daily_day r ∧
             ∃ d, dv.2 = Some d
                  ∧ (d == D_spec tbase (daily_tmax r) (daily_tmin r))%Q)
    (gdd_D tbase (gdd_tasmax_daily convert_units_to tasmax)
                 (gdd_tasmin_daily convert_units_to tasmin))
    days
  ∧ ∃ gdd,
      gdd_baker year_of convert_units_to tasmax tasmin tbase freq = Ok gdd
      ∧ Forall2 (λ yv y, yv.1 = y ∧
                   ∃ q, yv.2 = Some q
                        ∧ (q == gdd_spec year_of tbase days y)%Q)
          (data gdd) (remove_dups (year_of <$> (daily_day <$> days))).
Proof.
  intros Hx Hn.
  pose proof (gdd_D_real tbase _ _ days Hx Hn) as HD.
  split.
  - rewrite HD. apply Forall2_fmap_l, Forall_Forall2_diag, Forall_forall.
    intros r _; simpl. split; [done|]. apply baker_D_real.
  - unfold gdd_baker.
    assert (time_axis (gdd_tasmax_daily convert_units_to tasmax)
            = time_axis (gdd_tasmin_daily convert_units_to tasmin)) as Hax.
    { unfold time_axis. rewrite Hx, Hn, <-!list_fmap_compose. done. }
    rewrite decide_True by done.
    eexists; split; [reflexivity|]. simpl.
    rewrite HD. unfold time_axis; simpl.
    rewrite <-!list_fmap_compose.
    apply Forall2_fmap_l, Forall_Forall2_diag, Forall_forall.
    intros y _; simpl. split; [done|].
    eexists; split; [reflexivity|]. apply yearly_bin_real.
Qed.

(** C8. For real [tmax], [tmin] and [tbase] the daily value [D] is a real
    number that is not negative, and so is every yearly sum [gdd_baker]
    returns. *)
Theorem gdd_baker_nonneg :
  (∀ tbase tmax tmin : Q,
     ∃ d, baker_D tbase (Some tmax) (Some tmin) = Some d ∧ (0 <= d)%Q)
  ∧ (∀ tasmax tasmin tbase freq gdd,
       gdd_baker year_of convert_units_to tasmax tasmin tbase freq = Ok gdd →
       Forall (λ yv, ∃ q, yv.2 = Some q ∧ (0 <= q)%Q) (data gdd)).
Proof.
  split.
  - intros tbase tmax tmin.
    destruct (baker_D_real tbase tmax tmin) as (d & Hd & _).
    exists d; split; [done|]. by eapply baker_D_nonneg.
  - intros tasmax tasmin tbase freq gdd. unfold gdd_baker.
    case_decide; [|done]. intros [= <-]; simpl.
    apply Forall_fmap, Forall_forall. intros y _; simpl.
    eexists; split; [reflexivity|].
    apply nansum_nonneg. unfold bin; simpl.
    apply Forall_fmap, Forall_forall.
    intros [k c] [_ Hin]%list_elem_of_filter; simpl; intros q ->.
    unfold gdd_D in Hin. apply elem_of_zip_with in Hin as (x & n & [= _ HD] & _).
    by eapply baker_D_nonneg.
Qed.

(** C6. On a series in the order of time, [tropical_nights] hands xclim a
    daily series made of daily maxima: for each day from the first to the
    last day of [tasmin], once and in order, the largest real sample of
    [tasmin] taken on that day (NaN if the day has none).  [gdd_baker]
    brings the same series to days by the smallest sample of each day.
    On [two_days] the first gives 22 and 12, the second 18 and 10. *)
Theorem tropical_nights_uses_daily_max xc_tropical_nights tasmin freq :
  ordered_series tasmin →
  (∃ tasmin_daily,
     tropical_nights xc_tropical_nights tasmin freq
       = xc_tropical_nights tasmin_daily freq
     ∧ daily_extreme (λ q m, (q <= m)%Q) tasmin tasmin_daily)
  ∧ (∃ tasmin_daily,
       gdd_tasmin_daily convert_units_to tasmin
         = convert_units_to tasmin_daily "degC"
       ∧ daily_extreme (λ q m, (m <= q)%Q) tasmin tasmin_daily)
  ∧ data (tropical_nights (λ da _, da) two_days freq)
    = [(0, Some 22%Q); (1, Some 12%Q)]
  ∧ data (gdd_tasmin_daily (λ da _, da) two_days)
    = [(0, Some 18%Q); (1, Some 10%Q)].
Proof.
  intros _. split_and!.
  - exists (resample_D nanmax tasmin). split; [done|]. apply resample_D_nanmax.
  - exists (resample_D nanmin tasmin). split; [done|]. apply resample_D_nanmin.
  - by vm_compute.
  - by vm_compute.
Qed.

End GddFacts.

(** The theorems above at the sample input. *)
Lemma gdd_baker_piecewise_yearly_sample :
  ∃ gdd,
    gdd_baker noleap_year same_units sample_tasmax sample_tasmin 10%Q "MS" = Ok gdd
    ∧ Forall2 (λ yv y, yv.1 = y ∧
                 ∃ q, yv.2 = Some q
                      ∧ (q == gdd_spec noleap_year 10%Q sample_days y)%Q)
        (data gdd) [0; 1].
Proof.
  exact (proj2 (gdd_baker_piecewise_yearly noleap_year same_units
                  sample_tasmax sample_tasmin 10%Q "MS" sample_days
                  eq_refl eq_refl)).
Defined.

Lemma gdd_baker_nonneg_sample :
  ∃ gdd,
    gdd_baker noleap_year same_units sample_tasmax sample_tasmin 10%Q "YS" = Ok gdd
    ∧ Forall (λ yv, ∃ q, yv.2 = Some q ∧ (0 <= q)%Q) (data gdd).
Proof.
  eexists. split; [reflexivity|].
  exact (proj2 (gdd_baker_nonneg noleap_year same_units)
           sample_tasmax sample_tasmin 10%Q "YS" _ eq_refl).
Defined.


Lemma tropical_nights_uses_daily_max_sample :
  ordered_series sample_tasmin
  ∧ ∃ tasmin_daily,
      tropical_nights (λ da _, da) sample_tasmin "YS" = tasmin_daily
      ∧ daily_extreme (λ q m, (q <= m)%Q) sample_tasmin tasmin_daily.
Proof.
  assert (ordered_series sample_tasmin) as Hord.
  { split; [done|]. apply (bool_decide_unpack _). by vm_compute. }
  split; [exact Hord|].
  exact (proj1 (tropical_nights_uses_daily_max same_units (λ da _, da)
                  sample_tasmin "YS" Hord)).
Defined.

(** ** The log monad *)

Lemma log_bind {A B} (m : M A) (k : A → M B) :
  log (m ≫= k)
  = (log m ++ match result m with Ok a => log (k a) | Raise _ => [] end)%list.
Proof.
  destruct m as [l [a|e]]; unfold mbind, M_bind, bind, log, result; simpl.
  - by destruct (k a).
  - by rewrite app_nil_r.
Qed.

Lemma result_bind {A B} (m : M A) (k : A → M B) :
  result (m ≫= k)
  = match result m with Ok a => result (k a) | Raise e => Raise e end.
Proof.
  destruct m as [l [a|e]]; unfold mbind, M_bind, bind, log, result; simpl; [|done].
  by destruct (k a).
Qed.

Lemma bind_Ok_l {A B} l (a : A) (k : A → M B) :
  (l, Ok a) ≫= k = ((l ++ log (k a))%list, result (k a)).
Proof. unfold mbind, M_bind, bind, log, result. by destruct (k a). Qed.

Lemma getitem_Some {V} (d : gmap string V) key v :
  d !! key = Some v → getitem d key = ([], Ok v).
Proof. unfold getitem. by intros ->. Qed.

Lemma getitem_None {V} (d : gmap string V) key :
  d !! key = None → getitem d key = ([], Raise (Exn KeyError ("'" ++ key ++ "'"))).
Proof. unfold getitem. by intros ->. Qed.

(** ** hot_spell_frequency *)

Lemma hot_spell_other (hot_spell_type : string) :
  hot_spell_type ≠ "summer" → hot_spell_type ≠ "hot" →
  hot_spell_type ≠ "heatwave" → hot_spell !! hot_spell_type = None.
Proof.
  intros H1 H2 H3. unfold hot_spell.
  by rewrite !lookup_insert_ne, lookup_singleton_ne.
Qed.

Lemma hot_spell_frequency_known xc tasmax hot_spell_type freq s :
  hot_spell !! hot_spell_type = Some s →
  hot_spell_frequency xc tasmax hot_spell_type freq = spell_run xc tasmax freq s.
Proof.
  intros Hs. unfold hot_spell_frequency. by rewrite (getitem_Some _ _ _ Hs).
Qed.

(** C9, as the code has it.  [hot_spell_frequency] accepts exactly 'summer',
    'hot' and 'heatwave', with 25 degC/1 day, 30 degC/1 day and
    27 degC/3 days and the long_name summer_days, hot_days and
    heatwave_spell.  For any other value it raises KeyError once the daily
    maxima have been resampled and before xclim is called. *)
Theorem hot_spell_frequency_cases xc tasmax hot_spell_type freq :
  (hot_spell_type = "summer" →
     hot_spell_frequency xc tasmax hot_spell_type freq
     = spell_run xc tasmax freq (mkSpell "summer_days" "25 degC" 1))
  ∧ (hot_spell_type = "hot" →
     hot_spell_frequency xc tasmax hot_spell_type freq
     = spell_run xc tasmax freq (mkSpell "hot_days" "30 degC" 1))
  ∧ (hot_spell_type = "heatwave" →
     hot_spell_frequency xc tasmax hot_spell_type freq
     = spell_run xc tasmax freq (mkSpell "heatwave_spell" "27 degC" 3))
  ∧ (hot_spell_type ≠ "summer" → hot_spell_type ≠ "hot" →
     hot_spell_type ≠ "heatwave" →
     hot_spell_frequency xc tasmax hot_spell_type freq
     = ([Resample "D" "max"],
        Raise (Exn KeyError ("'" ++ hot_spell_type ++ "'")))).
Proof.
  repeat split.
  - intros ->. by apply hot_spell_frequency_known.
  - intros ->. by apply hot_spell_frequency_known.
  - intros ->. by apply hot_spell_frequency_known.
  - intros H1 H2 H3. unfold hot_spell_frequency.
    by rewrite (getitem_None _ _ (hot_spell_other _ H1 H2 H3)).
Qed.

Lemma hot_spell_frequency_cases_sample :
  hot_spell_frequency echo_spell sample_tasmax "cold" "YS"
  = ([Resample "D" "max"], Raise (Exn KeyError "'cold'")).
Proof.
  refine (proj2 (proj2 (proj2
    (hot_spell_frequency_cases echo_spell sample_tasmax "cold" "YS"))) _ _ _);
    discriminate.
Defined.

(** C9 as stated fails: at the KeyError the resampling has been done. *)
Lemma hot_spell_frequency_resamples_before_KeyError :
  ¬ (∀ xc tasmax hot_spell_type freq,
       hot_spell_type ∉ ["summer"; "hot"; "heatwave"] →
       log (hot_spell_frequency xc tasmax hot_spell_type freq) = []).
Proof.
  intros H.
  assert ("cold" ∉ ["summer"; "hot"; "heatwave"]) as Hcold.
  { intros Hin.
    repeat (apply elem_of_cons in Hin as [Hin|Hin]; [discriminate|]).
    by apply elem_of_nil in Hin. }
  specialize (H echo_spell sample_tasmax "cold" "YS" Hcold).
  vm_compute in H. discriminate H.
Qed.

(** ** spi and the other place that recovers from a failure *)

Lemma spi_result xc pr freq :
  result (spi xc pr freq)
  = match xc (resample_D nanmean pr) freq with
    | Ok da => Ok (IsDataArray da)
    | Raise e => if is_FitError e then Ok (IsDataset []) else Raise e
    end.
Proof.
  unfold spi. rewrite result_bind; simpl.
  destruct (xc (resample_D nanmean pr) freq) as [da|e]; simpl; [done|].
  unfold try_except; simpl. by destruct (is_FitError e).
Qed.

Lemma load_fua_read_fails pilotarea w e :
  read_file w FUA_SHP = Raise e →
  load_fua pilotarea w
  = ([FsRead FUA_SHP;
      Print (Text ("Warning: Could not load FUA shapefile: " ++ exn_msg e))],
     Ok (None, false)).
Proof. intros He. unfold load_fua. rewrite He. reflexivity. Qed.

(** C3, as the code has it.  [spi] returns an empty Dataset exactly when the
    underlying computation raises FitError, returns the computed index when
    that computation returns, and lets any other exception through; and it
    is not alone: the FUA block of the plotting script ends normally, with
    no shape and [fua_found = False], whatever exception the shapefile read
    raises. *)
Theorem spi_recovers_and_so_does_load_fua xc pr freq :
  (result (spi xc pr freq) = Ok (IsDataset [])
     ↔ ∃ e, xc (resample_D nanmean pr) freq = Raise e ∧ exn_cls e = FitError)
  ∧ (∀ da, xc (resample_D nanmean pr) freq = Ok da →
           result (spi xc pr freq) = Ok (IsDataArray da))
  ∧ (∀ e, xc (resample_D nanmean pr) freq = Raise e → exn_cls e ≠ FitError →
          result (spi xc pr freq) = Raise e)
  ∧ (∀ pilotarea w e, read_file w FUA_SHP = Raise e →
          result (load_fua pilotarea w) = Ok (None, false)).
Proof.
  rewrite spi_result. repeat split.
  - destruct (xc _ _) as [da|e]; [done|].
    unfold is_FitError. case_bool_decide; [|done]. intros _. by exists e.
  - intros (e & -> & He). unfold is_FitError. by rewrite bool_decide_true.
  - by intros da ->.
  - intros e -> He. unfold is_FitError. by rewrite bool_decide_false.
  - intros pilotarea w e He. by rewrite (load_fua_read_fails _ _ _ He).
Qed.

Lemma spi_recovers_and_so_does_load_fua_sample :
  result (load_fua "Athens" (sample_world (Raise (Exn OSError "no such file"))))
  = Ok (None, false).
Proof.
  exact (proj2 (proj2 (proj2
    (spi_recovers_and_so_does_load_fua
       (λ _ _, Raise (Exn FitError "fit failed")) sample_tasmax "MS")))
    "Athens" (sample_world (Raise (Exn OSError "no such file")))
    (Exn OSError "no such file") eq_refl).
Defined.

(** C3 as stated fails: the FUA block recovers from a failed read too. *)
Lemma load_fua_recovers :
  recovers (λ fua : outcome GeoDataFrame, load_fua "Athens" (sample_world fua)).
Proof.
  exists (Exn OSError "no such file"), (None, false). reflexivity.
Qed.

(** ** The FUA boundary *)

(** C5 at a pilot area other than Athens.  With [pilotarea = "Birmingham"]
    and a shapefile that holds both Athina and Birmingham, the script
    announces the FUA of Birmingham as found and then selects and draws the
    Athina polygon. *)
Theorem fua_selection_ignores_pilotarea :
  let cfg := mkConfig "viridis" "Birmingham" "era5-2km" "cdd"
               (Some 1989) (Some 2018) None None None None None in
  let w := sample_world (Ok sample_gdf) in
  load_fua (pilotarea cfg) w
  = ([FsRead FUA_SHP; Print (Text "FUA 'Birmingham': Found")],
     Ok (Some (mkGdf ["FUA_NAME"] [athina]), true))
  ∧ Plt (boundary_plot [geometry athina]) ∈ log (plot_map_2D cfg w)
  ∧ Plt (boundary_plot [geometry birmingham]) ∉ log (plot_map_2D cfg w).
Proof.
  split; [by vm_compute|]. split.
  - apply (list_elem_of_lookup_2 _ 13). by vm_compute.
  - apply (bool_decide_unpack _). by vm_compute.
Qed.


(** ** The plotting script: what survives a failed shapefile read *)

Lemma bind_Ok_inv {A B} (m : M A) (k : A → M B) l b :
  m ≫= k = (l, Ok b) →
  ∃ l1 a l2, m = (l1, Ok a) ∧ k a = (l2, Ok b) ∧ l = (l1 ++ l2)%list.
Proof.
  destruct m as [l1 [a|e]]; unfold mbind, M_bind, bind; simpl; [|done].
  destruct (k a) as [l2 r] eqn:Hk. intros [= <- ->]. by exists l1, a, l2.
Qed.

Lemma np_reduce_Ok pick arr l v :
  np_reduce pick arr = (l, Ok v) → arr ≠ [].
Proof. by destruct arr. Qed.

Lemma load_data_Ok cfg w l0 d :
  load_data cfg w = (l0, Ok d) → lon_valid d ≠ [] ∧ lat_valid d ≠ [].
Proof.
  unfold load_data. intros H.
  repeat (apply bind_Ok_inv in H as (? & ? & ? & ? & H & ?)).
  injection H as _ <-; simpl.
  split; eapply np_reduce_Ok; eassumption.
Qed.

(** The run of [draw_and_save], step by step, once the extent is known. *)
Lemma draw_and_save_steps cfg w d fua_shape fua_found x xs y ys :
  lon_valid d = x :: xs → lat_valid d = y :: ys →
  (fua_found = true → is_Some fua_shape) →
  draw_and_save cfg w d (fua_shape, fua_found)
  = ((map_steps cfg w d
        ++ (if fua_found then
              match fua_shape with
              | Some shp => overlay_steps shp
              | None => []
              end
            else [])
        ++ later_steps cfg
             (foldl (lift2 (λ a b, if Qle_bool a b then a else b)) x xs)
             (foldl (lift2 (λ a b, if Qle_bool a b then b else a)) x xs)
             (foldl (lift2 (λ a b, if Qle_bool a b then a else b)) y ys)
             (foldl (lift2 (λ a b, if Qle_bool a b then b else a)) y ys))%list,
     Ok tt).
Proof.
  intros Hlon Hlat Hshape.
  unfold draw_and_save, map_steps, overlay_steps, later_steps,
    plot_title, savefig_name.
  rewrite Hlon, Hlat.
  destruct (get_title_and_savefig _ _ _ _ _ _ _ _ _ _) as [t n].
  destruct fua_found; [|done].
  destruct fua_shape as [shp|]; [done|].
  by destruct (Hshape eq_refl).
Qed.

(** C7.  Once the data are loaded, a shapefile read that raises [e] is
    caught: the FUA block prints its warning and leaves no shape and
    [fua_found = False], and the script goes on to the end.  Its steps
    after the warning are, in this order: the figure, the axes, the grid
    lines and the colour mesh ([map_steps]), then the colour bar and its
    label, the extent, the title, the two axis labels, the figure saved
    at 300 dpi, shown, and the line that names the saved file
    ([later_steps]).  A run that has found a shape makes the same steps,
    with the boundary overlay between the two groups.  (The calls of
    matplotlib and cartopy are taken to return.) *)
Theorem plot_survives_fua_failure cfg w e l0 d :
  load_data cfg w = (l0, Ok d) →
  read_file w FUA_SHP = Raise e →
  ∃ lon_min lon_max lat_min lat_max,
    np_min (lon_valid d) = ([], Ok lon_min)
    ∧ np_max (lon_valid d) = ([], Ok lon_max)
    ∧ np_min (lat_valid d) = ([], Ok lat_min)
    ∧ np_max (lat_valid d) = ([], Ok lat_max)
    ∧ load_fua (pilotarea cfg) w
      = ([FsRead FUA_SHP;
          Print (Text ("Warning: Could not load FUA shapefile: " ++ exn_msg e))],
         Ok (None, false))
    ∧ plot_map_2D cfg w
      = ((l0
          ++ [FsRead FUA_SHP;
              Print (Text ("Warning: Could not load FUA shapefile: "
                             ++ exn_msg e))]
          ++ map_steps cfg w d
          ++ later_steps cfg lon_min lon_max lat_min lat_max)%list,
         Ok tt)
    ∧ ∀ shp,
        draw_and_save cfg w d (Some shp, true)
        = ((map_steps cfg w d
            ++ overlay_steps shp
            ++ later_steps cfg lon_min lon_max lat_min lat_max)%list,
           Ok tt).
Proof.
  intros Hd He.
  destruct (load_data_Ok _ _ _ _ Hd) as [Hlon Hlat].
  destruct (lon_valid d) as [|x xs] eqn:Ex; [done|].
  destruct (lat_valid d) as [|y ys] eqn:Ey; [done|].
  do 4 eexists. split_and!; [reflexivity..| | |].
  - by apply load_fua_read_fails.
  - unfold plot_map_2D. rewrite Hd, bind_Ok_l.
    rewrite (load_fua_read_fails _ _ _ He), bind_Ok_l.
    by rewrite (draw_and_save_steps cfg w d None false x xs y ys Ex Ey).
  - intros shp.
    by rewrite (draw_and_save_steps cfg w d (Some shp) true x xs y ys Ex Ey).
Qed.

Lemma plot_survives_fua_failure_sample :
  ∃ l0 d,
    load_data example_1 (sample_world (Raise (Exn OSError "no such file")))
      = (l0, Ok d)
    ∧ plot_map_2D example_1 (sample_world (Raise (Exn OSError "no such file")))
      = ((l0
          ++ [FsRead FUA_SHP;
              Print (Text "Warning: Could not load FUA shapefile: no such file")]
          ++ map_steps example_1
               (sample_world (Raise (Exn OSError "no such file"))) d
          ++ later_steps example_1
               (Some 23%Q) (Some 24%Q) (Some 37%Q) (Some 38%Q))%list,
         Ok tt).
Proof.
  do 2 eexists. split; [reflexivity|].
  destruct (plot_survives_fua_failure example_1
              (sample_world (Raise (Exn OSError "no such file")))
              (Exn OSError "no such file") _ _ eq_refl eq_refl)
    as (x0 & x1 & y0 & y1 & H0 & H1 & H2 & H3 & _ & Hrun & _).
  injection H0 as <-. injection H1 as <-.
  injection H2 as <-. injection H3 as <-.
  exact Hrun.
Defined.

(** ** What a run writes *)

Lemma append_nonempty_r (s t : string) : t ≠ "" → s ++ t ≠ "".
Proof. destruct s; simpl; [done|]. by intros _. Qed.

Lemma last_char_app (s t : string) : t ≠ "" → last_char (s ++ t) = last_char t.
Proof.
  intros Ht. induction s as [|c s IH]; simpl; [done|].
  pose proof (append_nonempty_r s t Ht) as Hne.
  destruct (s ++ t); [done|]. exact IH.
Qed.

(** The last character of a concatenation that ends in a literal. *)
Ltac last_char_of_literal :=
  repeat (rewrite last_char_app by (repeat apply append_nonempty_r; done));
  reflexivity.

Lemma construct_filename_nc p dn i sy ey hsy hey psy pey sc filename :
  construct_filename p dn i sy ey hsy hey psy pey sc = Ok filename →
  last_char filename = Some "c"%char.
Proof.
  unfold construct_filename.
  repeat case_bool_decide; intros [= <-]; last_char_of_literal.
Qed.

Lemma savefig_name_png cfg : last_char (savefig_name cfg) = Some "g"%char.
Proof.
  unfold savefig_name, get_title_and_savefig.
  case_bool_decide; simpl; last_char_of_literal.
Qed.

Lemma Forall_log_bind {A B} (P : event → Prop) (m : M A) (k : A → M B) :
  Forall P (log m) → (∀ a, Forall P (log (k a))) → Forall P (log (m ≫= k)).
Proof.
  intros Hm Hk. rewrite log_bind. apply Forall_app; split; [done|].
  destruct (result m); [apply Hk | constructor].
Qed.

Lemma Forall_log_try_except {A} (P : event → Prop) (body : M A) catches handler :
  Forall P (log body) → (∀ e, Forall P (log (handler e))) →
  Forall P (log (try_except body catches handler)).
Proof.
  intros Hb Hh. destruct body as [l [a|e]]; simpl; [done|].
  destruct (catches e); [|done].
  specialize (Hh e). destruct (handler e) as [l' r]; simpl in *.
  apply Forall_app; by split.
Qed.

Lemma Forall_log_lift {A} (P : event → Prop) (o : outcome A) :
  Forall P (log (lift o)).
Proof. constructor. Qed.

Lemma Forall_log_ds_getitem (P : event → Prop) ds key :
  Forall P (log (ds_getitem ds key)).
Proof. unfold ds_getitem. destruct (list_find _ _) as [[? ?]|]; constructor. Qed.

Lemma Forall_log_mask_select (P : event → Prop) arr mask :
  Forall P (log (mask_select arr mask)).
Proof. unfold mask_select. case_decide; constructor. Qed.

Lemma Forall_log_np_reduce (P : event → Prop) pick arr :
  Forall P (log (np_reduce pick arr)).
Proof. destruct arr; constructor. Qed.

Lemma Forall_log_select_fua (P : event → Prop) gdf :
  Forall P (log (select_fua gdf)).
Proof. unfold select_fua. case_bool_decide; constructor. Qed.

Lemma Forall_log_print (P : event → Prop) (m : message) :
  P (Print m) → Forall P (log (emit (Print m))).
Proof. by repeat constructor. Qed.

Lemma Forall_log_bind_Ok {A B} (P : event → Prop) (a : A) (k : A → M B) :
  Forall P (log (k a)) → Forall P (log (lift (Ok a) ≫= k)).
Proof. intros Hk. unfold lift. by rewrite bind_Ok_l. Qed.

Lemma load_data_only_reads cfg w : Forall only_reads (log (load_data cfg w)).
Proof.
  unfold load_data.
  destruct (construct_filename _ _ _ _ _ _ _ _ _ _) as [filename|e] eqn:Hf;
    [|constructor].
  apply construct_filename_nc in Hf.
  assert (filename ≠ "") as Hne by (by destruct filename).
  apply Forall_log_bind_Ok.
  repeat (apply Forall_log_bind; [|intros ?]);
    first [ apply Forall_log_lift | apply Forall_log_ds_getitem
          | apply Forall_log_mask_select | apply Forall_log_np_reduce
          | by apply Forall_log_print | idtac ].
  - repeat constructor. unfold only_reads.
    rewrite last_char_app by (by apply append_nonempty_r).
    rewrite last_char_app by done. by rewrite Hf.
Qed.

Lemma load_fua_only_reads pilotarea w :
  Forall only_reads (log (load_fua pilotarea w)).
Proof.
  unfold load_fua. apply Forall_log_try_except.
  - repeat (apply Forall_log_bind; [|intros ?]);
      first [ apply Forall_log_lift | apply Forall_log_select_fua
            | by apply Forall_log_print | idtac ].
    by repeat constructor.
  - intros e. by repeat constructor.
Qed.

Lemma only_reads_written (l : list event) :
  Forall only_reads l →
  written l = [] ∧ Forall (λ f, last_char f ≠ Some "g"%char) (read_files l).
Proof.
  induction 1 as [|ev l Hev _ [IHw IHr]]; [by split|].
  unfold written, read_files in *.
  destruct ev as [| | |f| |[]]; simpl in *; try done.
  split; [done|]. by constructor.
Qed.

Lemma draw_and_save_writes cfg w d fua :
  (written (log (draw_and_save cfg w d fua)) = []
   ∨ written (log (draw_and_save cfg w d fua)) = [savefig_name cfg])
  ∧ read_files (log (draw_and_save cfg w d fua)) = [].
Proof.
  unfold draw_and_save, savefig_name.
  destruct (get_title_and_savefig _ _ _ _ _ _ _ _ _ _) as [t n].
  destruct d as [lon lat g [|x xs] [|y ys]], fua as [[shp|] [|]];
    simpl; auto.
Qed.

Lemma plot_map_2D_log cfg w :
  (∃ l_draw,
     log (plot_map_2D cfg w)
     = (log (load_data cfg w) ++ (log (load_fua (pilotarea cfg) w) ++ l_draw))%list
     ∧ (written l_draw = [] ∨ written l_draw = [savefig_name cfg])
     ∧ read_files l_draw = [])
  ∨ log (plot_map_2D cfg w) = log (load_data cfg w).
Proof.
  unfold plot_map_2D. rewrite log_bind.
  destruct (result (load_data cfg w)) as [d|e].
  - left. rewrite log_bind.
    destruct (result (load_fua (pilotarea cfg) w)) as [fua|e].
    + exists (log (draw_and_save cfg w d fua)).
      split; [done|]. apply draw_and_save_writes.
    + exists []. split; [done|]. by split; [left|].
  - right. by rewrite app_nil_r.
Qed.

(** C10.  A run of the plotting script writes at most one file, the PNG
    named by [get_title_and_savefig], and that file is none of the files the
    run reads (the dataset and the shapefile); importing the paths module
    creates at most the tables and figures directories under
    [REPO_ROOT/outputs] and reads no file. *)
Theorem plot_writes_only_outputs cfg w fs cwd :
  (written (log (plot_map_2D cfg w)) = []
   ∨ written (log (plot_map_2D cfg w)) = [savefig_name cfg])
  ∧ Forall (λ f, f ∉ written (log (plot_map_2D cfg w)))
      (read_files (log (plot_map_2D cfg w)))
  ∧ (written (log (import_paths fs cwd)) = []
     ∨ ∃ REPO_ROOT,
         find_repo_root fs cwd = Ok REPO_ROOT
         ∧ written (log (import_paths fs cwd))
           = [path_str (TABLE_DIR REPO_ROOT); path_str (FIG_DIR REPO_ROOT)])
  ∧ read_files (log (import_paths fs cwd)) = [].
Proof.
  destruct (only_reads_written _ (load_data_only_reads cfg w)) as [Hw1 Hr1].
  destruct (only_reads_written _ (load_fua_only_reads (pilotarea cfg) w))
    as [Hw2 Hr2].
  assert (∀ l_draw,
            written (log (load_data cfg w)
                       ++ (log (load_fua (pilotarea cfg) w) ++ l_draw))%list
            = written l_draw) as Hw.
  { intros l. unfold written in *. by rewrite !omap_app, Hw1, Hw2. }
  assert (∀ names,
            (names = [] ∨ names = [savefig_name cfg]) →
            Forall (λ f, last_char f ≠ Some "g"%char)
              (read_files (log (plot_map_2D cfg w))) →
            Forall (λ f, f ∉ names) (read_files (log (plot_map_2D cfg w))))
    as Hdisjoint.
  { intros names Hnames HF. eapply Forall_impl; [exact HF|].
    intros f Hf Hin.
    destruct Hnames as [-> | ->]; [by apply elem_of_nil in Hin|].
    apply list_elem_of_singleton in Hin as ->.
    by rewrite savefig_name_png in Hf. }
  split_and!.
  - destruct (plot_map_2D_log cfg w) as [(l & -> & Hl & _) | ->].
    + by rewrite Hw.
    + by left.
  - destruct (plot_map_2D_log cfg w) as [(l & Hlog & Hl & Hr) | Hlog].
    + apply Hdisjoint; [by rewrite Hlog, Hw|]. rewrite Hlog.
      unfold read_files in *. rewrite !omap_app, Hr, app_nil_r.
      by apply Forall_app.
    + apply Hdisjoint; [left; by rewrite Hlog | by rewrite Hlog].
  - unfold import_paths. destruct (find_repo_root fs cwd) as [REPO_ROOT|e].
    + right. by exists REPO_ROOT.
    + by left.
  - unfold import_paths. by destruct (find_repo_root fs cwd).
Qed.


(** ** The order of paths *)

Lemma string_compare_refl (a : string) : String.compare a a = Eq.
Proof. by apply OrderedTypeEx.String_as_OT.cmp_eq. Qed.

Lemma string_compare_lt_trans (a b c : string) :
  String.compare a b = Lt → String.compare b c = Lt → String.compare a c = Lt.
Proof.
  intros Hab Hbc.
  apply OrderedTypeEx.String_as_OT.cmp_lt.
  apply OrderedTypeEx.String_as_OT.cmp_lt in Hab, Hbc.
  eapply OrderedTypeEx.String_as_OT.lt_trans; eassumption.
Qed.

Lemma path_compare_refl (p : path) : path_compare p p = Eq.
Proof.
  induction p as [|a p IH]; simpl; [done|]. by rewrite string_compare_refl.
Qed.

Lemma path_compare_eq (p q : path) : path_compare p q = Eq → p = q.
Proof.
  revert q. induction p as [|a p IH]; intros [|b q]; simpl; try done.
  destruct (String.compare a b) eqn:Hab; try done.
  apply String.compare_eq_iff in Hab as ->. by intros ->%IH.
Qed.

Lemma path_compare_antisym (p q : path) :
  path_compare p q = CompOpp (path_compare q p).
Proof.
  revert q. induction p as [|a p IH]; intros [|b q]; simpl; try done.
  rewrite (String.compare_antisym a b).
  destruct (String.compare b a); simpl; [apply IH|done..].
Qed.

Lemma path_compare_lt_trans (p q r : path) :
  path_compare p q = Lt → path_compare q r = Lt → path_compare p r = Lt.
Proof.
  revert q r.
  induction p as [|a p IH]; intros [|b q] [|c r]; simpl; try done.
  destruct (String.compare a b) eqn:Hab; try done;
    destruct (String.compare b c) eqn:Hbc; try done.
  - apply String.compare_eq_iff in Hab as ->, Hbc as ->.
    rewrite string_compare_refl. apply IH.
  - apply String.compare_eq_iff in Hab as ->. by rewrite Hbc.
  - apply String.compare_eq_iff in Hbc as <-. by rewrite Hab.
  - by rewrite (string_compare_lt_trans _ _ _ Hab Hbc).
Qed.

Global Instance path_le_trans : Transitive path_le.
Proof.
  intros p q r Hpq Hqr. unfold path_le in *.
  destruct (path_compare p q) eqn:Epq; [| |done].
  - by apply path_compare_eq in Epq as ->.
  - destruct (path_compare q r) eqn:Eqr; [| |done].
    + apply path_compare_eq in Eqr as <-. by rewrite Epq.
    + by rewrite (path_compare_lt_trans _ _ _ Epq Eqr).
Qed.

Global Instance path_le_total : Total path_le.
Proof.
  intros p q. unfold path_le. rewrite (path_compare_antisym q p).
  destruct (path_compare p q); simpl; auto.
Qed.

Lemma path_le_neq_lt (p q : path) : path_le p q → p ≠ q → path_lt p q.
Proof.
  unfold path_le, path_lt. intros Hle Hne.
  destruct (path_compare p q) eqn:E; [|done..].
  by apply path_compare_eq in E.
Qed.

Lemma sorted_set_elem_of (xs : list path) (p : path) :
  p ∈ sorted_set xs ↔ p ∈ xs.
Proof.
  unfold sorted_set.
  by rewrite merge_sort_Permutation, elem_of_elements, elem_of_list_to_set.
Qed.

Lemma sorted_set_NoDup (xs : list path) : NoDup (sorted_set xs).
Proof.
  unfold sorted_set. rewrite merge_sort_Permutation. apply NoDup_elements.
Qed.

Lemma sorted_set_ascending (xs : list path) :
  StronglySorted path_lt (sorted_set xs).
Proof.
  pose proof (sorted_set_NoDup xs) as Hnd.
  assert (StronglySorted path_le (sorted_set xs)) as Hs.
  { unfold sorted_set. apply (StronglySorted_merge_sort _). }
  induction Hs as [|p l Hs IH Hall]; [constructor|].
  apply NoDup_cons in Hnd as [Hp Hnd].
  constructor; [by apply IH|].
  apply Forall_forall. intros q Hq.
  apply path_le_neq_lt; [by eapply Forall_forall in Hall|].
  by intros ->.
Qed.

(** ** rglob and the INDICATORS directories *)

Lemma last_cons_nonempty (c : string) (rest : path) :
  rest ≠ [] → List.last (c :: rest) "" = List.last rest "".
Proof. by destruct rest. Qed.

Lemma rglob_spec (accepts : string → bool) (t : node) :
  ∀ parent p n,
    (p, n) ∈ rglob accepts parent t
    ↔ ∃ rel, rel ≠ [] ∧ p = (parent ++ rel)%list ∧ at_path t rel n
             ∧ accepts (List.last rel "") = true.
Proof.
  induction t as [|entries IH] using node_nested_ind; intros parent p n.
  { simpl. split; [by intros ?%elem_of_nil|].
    intros (rel & Hne & _ & Hat & _). by inversion Hat; subst. }
  rewrite Forall_forall in IH.
  simpl. rewrite elem_of_app, list_elem_of_fmap, list_elem_of_In, in_flat_map.
  split.
  - intros [([c child] & [= -> ->] & [Hacc Hin]%list_elem_of_filter)
           | ([c child] & Hin%list_elem_of_In & Hsub%list_elem_of_In)];
      simpl in *.
    + exists [c]. split_and!; [done|done| |done].
      eapply at_down; [done|constructor].
    + apply (IH _ Hin) in Hsub as (rel & Hne & -> & Hat & Hacc).
      exists (c :: rel). split_and!; [done| | |].
      * unfold joinpath. by rewrite <-app_assoc.
      * by eapply at_down.
      * by rewrite last_cons_nonempty.
  - intros (rel & Hne & -> & Hat & Hacc).
    inversion Hat as [|es c rest child n' Hin Hrest]; subst; [done|].
    destruct rest as [|c' rest].
    + inversion Hrest; subst. left. exists (c, n). split; [done|].
      by apply list_elem_of_filter.
    + right. exists (c, child). split; [by apply list_elem_of_In|].
      apply list_elem_of_In, (IH _ Hin). exists (c' :: rest).
      split_and!; [done| |done|done].
      unfold joinpath; simpl. by rewrite <-app_assoc.
Qed.

Lemma path_name_app (root rel : path) :
  rel ≠ [] → path_name (root ++ rel)%list = List.last rel "".
Proof.
  intros Hne. unfold path_name.
  induction root as [|c root IH]; simpl; [done|].
  rewrite <-IH. destruct (root ++ rel)%list eqn:E; [|done].
  by apply app_eq_nil in E as [_ ->].
Qed.

Lemma ignored_parts_spec (p : path) :
  (list_to_set p : gset string) ∩ ignore_parts ≠ ∅
  ↔ ¬ Forall (λ c, c ∉ ignore_parts) p.
Proof.
  rewrite Forall_forall. split.
  - intros Hne Hall. apply Hne. apply set_eq. intros c.
    rewrite elem_of_intersection, elem_of_list_to_set.
    split; [|by intros ?%elem_of_empty]. intros [Hc Hi]. by destruct (Hall c Hc).
  - intros Hall Hempty. apply Hall. intros c Hc Hi.
    assert (c ∈ (list_to_set p : gset string) ∩ ignore_parts) as Hin.
    { apply elem_of_intersection. split; [by apply elem_of_list_to_set|done]. }
    rewrite Hempty in Hin. by apply elem_of_empty in Hin.
Qed.

(** The names [iter_indicators_dirs] turns away. *)
Lemma ignore_parts_names (c : string) :
  c ∈ ignore_parts
  ↔ c = "outputs" ∨ c = ".git" ∨ c = ".ipynb_checkpoints" ∨ c = ".cache".
Proof.
  unfold ignore_parts. rewrite !elem_of_union, !elem_of_singleton. tauto.
Qed.

(** C4.  [iter_indicators_dirs] returns exactly the directories below
    [root] whose name is INDICATORS and none of whose parts (those of
    [root] included) is 'outputs', '.git', '.ipynb_checkpoints' or
    '.cache'; the list has no duplicates and is strictly ascending in the
    order of paths. *)
Theorem iter_indicators_dirs_spec (root : path) (t : node) :
  (∀ p, p ∈ iter_indicators_dirs root t
        ↔ ∃ rel entries,
            rel ≠ [] ∧ p = (root ++ rel)%list
            ∧ at_path t rel (Dir entries)
            ∧ path_name p = "INDICATORS"
            ∧ ∀ c, c ∈ p →
                c ≠ "outputs" ∧ c ≠ ".git"
                ∧ c ≠ ".ipynb_checkpoints" ∧ c ≠ ".cache")
  ∧ NoDup (iter_indicators_dirs root t)
  ∧ StronglySorted path_lt (iter_indicators_dirs root t).
Proof.
  assert (∀ p : path,
            Forall (λ c, c ∉ ignore_parts) p
            ↔ ∀ c, c ∈ p →
                c ≠ "outputs" ∧ c ≠ ".git"
                ∧ c ≠ ".ipynb_checkpoints" ∧ c ≠ ".cache") as Hnames.
  { intros p. rewrite Forall_forall.
    split; intros H c Hc; specialize (H c Hc);
      rewrite ignore_parts_names in *; tauto. }
  unfold iter_indicators_dirs.
  split; [|split; [apply sorted_set_NoDup | apply sorted_set_ascending]].
  intros p. rewrite sorted_set_elem_of, list_elem_of_omap. split.
  - intros ([q n] & Hin & Hsome).
    destruct n as [|entries]; simpl in Hsome; [done|].
    case_decide as Hign; [done|]. injection Hsome as ->.
    apply rglob_spec in Hin as (rel & Hne & -> & Hat & Hacc).
    exists rel, entries. split_and!; [done|done|done| |].
    + rewrite path_name_app by done. symmetry. by apply String.eqb_eq.
    + apply Hnames.
      destruct (decide (Forall (λ c, c ∉ ignore_parts) (root ++ rel)%list))
        as [|Hsome]; [done|].
      by apply ignored_parts_spec in Hsome.
  - intros (rel & entries & Hne & -> & Hat & Hname & Hparts).
    apply Hnames in Hparts.
    exists ((root ++ rel)%list, Dir entries). split.
    + apply rglob_spec. exists rel. split_and!; [done|done|done|].
      rewrite <-path_name_app with (root := root) by done.
      rewrite Hname. by apply String.eqb_eq.
    + simpl. rewrite decide_False; [done|].
      by intros Hno%ignored_parts_spec.
Qed.


(** ** resolve_indicator_by_basename *)

(** The outcome is decided by the number of hits. *)
Lemma resolve_by_hits fnmatch basename root t :
  match iter_indicator_files fnmatch basename root t with
  | [] => ∃ msg, resolve_indicator_by_basename fnmatch basename root t
                 = Raise (Exn FileNotFoundError msg)
  | [h] => resolve_indicator_by_basename fnmatch basename root t = Ok h
  | _ :: _ :: _ => ∃ msg, resolve_indicator_by_basename fnmatch basename root t
                          = Raise (Exn FileExistsError msg)
  end.
Proof.
  unfold resolve_indicator_by_basename.
  destruct (iter_indicator_files fnmatch basename root t) as [|h [|h' hits]].
  - by eexists.
  - rewrite bool_decide_false; [done|]. simpl. lia.
  - rewrite bool_decide_true; [by eexists|]. simpl. lia.
Qed.

(** C2 at a tree with nested INDICATORS directories.  The tree holds exactly
    one entry named athens_cdd.nc, and it lies below INDICATORS directories
    that are not excluded; both the outer and the inner directory are
    searched, the file is found twice, and the lookup raises
    FileExistsError instead of returning the file. *)
Theorem resolve_counts_nested_file_twice :
  rglob (String.eqb "athens_cdd.nc") repo_root nested_tree
    = [(nested_file, File)]
  ∧ iter_indicators_dirs repo_root nested_tree
    = [["/"; "repo"; "Athens"; "INDICATORS"];
       ["/"; "repo"; "Athens"; "INDICATORS"; "era5"; "INDICATORS"]]
  ∧ iter_indicator_files String.eqb "athens_cdd.nc" repo_root nested_tree
    = [nested_file; nested_file]
  ∧ resolve_indicator_by_basename String.eqb "athens_cdd.nc" repo_root nested_tree
    = Raise (Exn FileExistsError
        ("Basename athens_cdd.nc is ambiguous (2 matches). Examples:"
           ++ newline ++ path_str nested_file
           ++ newline ++ path_str nested_file)).
Proof. split_and!; by vm_compute. Qed.

(** * Further properties *)

(** ** The daily degree-day value *)

Ltac baker_cases :=
  unfold baker_D, xr_where, cle, cge, cgt, cadd, csub, cmul, cdiv, lift2;
  simpl; q_cases.

(** X1.  On real temperatures a day contributes nothing exactly when its
    maximum does not exceed the base temperature, and a positive amount
    otherwise, whatever the minimum is. *)
Theorem baker_D_zero_iff (tbase tmax tmin : Q) :
  ∃ d, baker_D tbase (Some tmax) (Some tmin) = Some d
       ∧ ((d == 0)%Q ↔ (tmax <= tbase)%Q)
       ∧ ((tbase < tmax)%Q ↔ (0 < d)%Q).
Proof.
  baker_cases; (eexists; split; [reflexivity|]); split; split; intros; q_arith.
Qed.

(** X2.  When the minimum does not exceed the maximum, the daily value is
    at most the excess of the maximum over the base temperature. *)
Theorem baker_D_upper_bound (tbase tmax tmin : Q) :
  (tmin <= tmax)%Q →
  ∃ d, baker_D tbase (Some tmax) (Some tmin) = Some d
       ∧ (tbase < tmax → d <= tmax - tbase)%Q.
Proof.
  intros Hle. baker_cases; (eexists; split; [reflexivity|]); intros; q_arith.
Qed.

Lemma baker_D_upper_bound_sample :
  ∃ d, baker_D 10%Q (Some 22%Q) (Some 8%Q) = Some d
       ∧ (10 < 22 → d <= 22 - 10)%Q.
Proof. apply baker_D_upper_bound. by vm_compute. Defined.

(** X3.  Missing values.  A missing maximum makes the day's value NaN.  A
    missing minimum does not: the day counts 0 if the maximum is at most
    the base temperature and a quarter of the excess otherwise. *)
Theorem baker_D_missing (tbase tmax : Q) (tasmin_daily : cell) :
  baker_D tbase None tasmin_daily = None
  ∧ baker_D tbase (Some tmax) None
    = Some (if Qle_bool tmax tbase then 0 else (tmax - tbase) / 4)%Q.
Proof.
  split.
  - unfold baker_D, xr_where, cle, cge, cgt, cadd, csub, cmul, cdiv, lift2.
    destruct tasmin_daily as [b|]; simpl; [|done].
    by destruct (Qle_bool tbase b).
  - unfold baker_D, xr_where, cle, cge, cgt, cadd, csub, cmul, cdiv, lift2.
    simpl. by destruct (Qle_bool tmax tbase).
Qed.

(** X4.  Shifting the two temperatures and the base temperature by the
    same amount (degC against K) leaves the daily value unchanged. *)
Theorem baker_D_shift (c tbase tmax tmin : Q) :
  cell_eqv (baker_D (tbase + c) (Some (tmax + c)%Q) (Some (tmin + c)%Q))
           (baker_D tbase (Some tmax) (Some tmin)).
Proof. baker_cases; q_arith. Qed.

(** X5.  Between the second and the fourth branch the value falls as the
    minimum rises: with the maximum above the base temperature, the minimum
    below it and the mean above it, a colder night gives a larger value. *)
Theorem baker_D_decreasing_in_tmin (tbase tmax tmin tmin' : Q) :
  (tmin < tmin')%Q → (tmin' < tbase)%Q → (tbase < (tmax + tmin) / 2)%Q →
  ∃ d d', baker_D tbase (Some tmax) (Some tmin) = Some d
          ∧ baker_D tbase (Some tmax) (Some tmin') = Some d'
          ∧ (d' < d)%Q.
Proof.
  intros H1 H2 H3.
  baker_cases; (do 2 eexists; split_and!; [reflexivity..|]); q_arith.
Qed.

Lemma baker_D_decreasing_in_tmin_sample :
  ∃ d d', baker_D 10%Q (Some 20%Q) (Some 1%Q) = Some d
          ∧ baker_D 10%Q (Some 20%Q) (Some 9%Q) = Some d'
          ∧ (d' < d)%Q.
Proof. apply baker_D_decreasing_in_tmin; by vm_compute. Defined.

(** ** Resampling to days *)

(** The first and the last day are decided by the set of days alone. *)
Lemma day_bounds_same_set (d d' : Z) (ds ds' : list Z) :
  (∀ x, x ∈ d :: ds ↔ x ∈ d' :: ds') →
  foldr Z.min d ds = foldr Z.min d' ds'
  ∧ foldr Z.max d ds = foldr Z.max d' ds'.
Proof.
  intros Hset.
  destruct (foldr_min_spec d ds) as [Hm1 Hm2].
  destruct (foldr_min_spec d' ds') as [Hm1' Hm2'].
  destruct (foldr_max_spec d ds) as [HM1 HM2].
  destruct (foldr_max_spec d' ds') as [HM1' HM2'].
  apply Hset in Hm1, HM1. apply Hset in Hm1', HM1'.
  specialize (Hm2 _ Hm1'). specialize (Hm2' _ Hm1).
  specialize (HM2 _ HM1'). specialize (HM2' _ HM1). lia.
Qed.

Section ResampleFacts.

Variable year_of : Z → Z.
Variable convert_units_to : DataArray Z → string → DataArray Z.

(** The conversion of units leaves the time axis alone. *)
Hypothesis convert_keeps_axis :
  ∀ da target, time_axis (convert_units_to da target) = time_axis da.

(** X6.  On two series in the order of time, [gdd_baker] returns a result
    whenever the two have samples on the same set of days, at whatever
    times of the day and however many per day. *)
Theorem gdd_baker_same_days tasmax tasmin tbase freq :
  ordered_series tasmax → ordered_series tasmin →
  (∀ d, d ∈ day_of <$> time_axis tasmax ↔ d ∈ day_of <$> time_axis tasmin) →
  ∃ gdd, gdd_baker year_of convert_units_to tasmax tasmin tbase freq = Ok gdd.
Proof.
  intros _ _ Hset. unfold gdd_baker.
  rewrite decide_True; [by eexists|].
  unfold gdd_tasmax_daily, gdd_tasmin_daily.
  rewrite !convert_keeps_axis, !resample_D_axis.
  destruct (day_of <$> time_axis tasmax) as [|d ds],
           (day_of <$> time_axis tasmin) as [|d' ds']; [done| | |].
  - specialize (Hset d'). destruct Hset as [_ Hset].
    by apply elem_of_nil in Hset; [|left].
  - specialize (Hset d). destruct Hset as [Hset _].
    by apply elem_of_nil in Hset; [|left].
  - by destruct (day_bounds_same_set _ _ _ _ Hset) as [-> ->].
Qed.

(** X7.  [gdd_baker] raises ValueError when the minimum series has a sample
    on a day before every day of the maximum series: the two daily series
    then start on different days and [xr.where] cannot join them. *)
Theorem gdd_baker_different_start tasmax tasmin tbase freq d0 :
  data tasmax ≠ [] →
  d0 ∈ day_of <$> time_axis tasmin →
  (∀ d, d ∈ day_of <$> time_axis tasmax → (d0 < d)%Z) →
  ∃ msg, gdd_baker year_of convert_units_to tasmax tasmin tbase freq
         = Raise (Exn ValueError msg).
Proof.
  intros Hne Hd0 Hbefore. unfold gdd_baker.
  rewrite decide_False; [by eexists|].
  unfold gdd_tasmax_daily, gdd_tasmin_daily.
  rewrite !convert_keeps_axis, !resample_D_axis.
  destruct (day_of <$> time_axis tasmax) as [|d ds] eqn:Hx.
  { unfold time_axis in Hx. by destruct (data tasmax). }
  destruct (day_of <$> time_axis tasmin) as [|d' ds'];
    [by apply elem_of_nil in Hd0|].
  destruct (foldr_min_spec d ds) as [Hm1 Hm2].
  destruct (foldr_min_spec d' ds') as [Hm1' Hm2'].
  destruct (foldr_max_spec d ds) as [HM1 HM2].
  destruct (foldr_max_spec d' ds') as [HM1' HM2'].
  specialize (Hbefore _ Hm1). specialize (Hm2' _ Hd0).
  specialize (HM2 _ Hm1). specialize (HM2' _ Hm1').
  rewrite (seqZ_cons (foldr Z.min d ds)) by lia.
  rewrite (seqZ_cons (foldr Z.min d' ds')) by lia.
  intros [= Heq _]. lia.
Qed.

End ResampleFacts.

Lemma gdd_baker_same_days_sample :
  ∃ gdd, gdd_baker noleap_year same_units sample_tasmax sample_tasmin 10%Q "YS"
         = Ok gdd.
Proof.
  apply (gdd_baker_same_days noleap_year same_units (λ _ _, eq_refl)).
  - split; [done|]. apply (bool_decide_unpack _). by vm_compute.
  - split; [done|]. apply (bool_decide_unpack _). by vm_compute.
  - intros d. by vm_compute.
Defined.

Lemma gdd_baker_different_start_sample :
  ∃ msg, gdd_baker noleap_year same_units sample_tasmax
           (mkDataArray ∅ [((363, 0), Some 7%Q); ((364, 0), Some 8%Q);
                           ((365, 0), Some 5%Q)])
           10%Q "YS"
         = Raise (Exn ValueError msg).
Proof.
  apply (gdd_baker_different_start noleap_year same_units (λ _ _, eq_refl)
           _ _ _ _ 363).
  - done.
  - by left.
  - intros d Hd. vm_compute in Hd.
    repeat (apply elem_of_cons in Hd as [->|Hd]; [done|]).
    by apply elem_of_nil in Hd.
Defined.

(** ** Series that are daily already *)

Lemma filter_none {A} (P : A → Prop) `{∀ x, Decision (P x)} (l : list A) :
  (∀ y, y ∈ l → ¬ P y) → filter P l = [].
Proof.
  induction l as [|x l IH]; intros Hno; [done|].
  rewrite filter_cons_False by (apply Hno; by left).
  apply IH. intros y Hy. apply Hno. by right.
Qed.

Lemma filter_unique_key {A} (key : A → Z) (l : list A) (s : A) :
  NoDup (key <$> l) → s ∈ l → filter (λ s', key s' = key s) l = [s].
Proof.
  induction l as [|x l IH]; intros Hnd Hs; [by apply elem_of_nil in Hs|].
  rewrite fmap_cons in Hnd. apply NoDup_cons in Hnd as [Hx Hnd].
  rewrite filter_cons. apply elem_of_cons in Hs as [->|Hs].
  - rewrite decide_True by done. f_equal.
    apply filter_none. intros y Hy Hk.
    apply Hx. rewrite <-Hk. by apply list_elem_of_fmap_2.
  - rewrite decide_False; [by apply IH|].
    intros Hk. apply Hx. rewrite Hk. by apply list_elem_of_fmap_2.
Qed.

Lemma resample_D_daily_gen (agg : list cell → cell) lo (da : DataArray timestamp) :
  daily_from lo da →
  data (resample_D agg da) = (λ s, (day_of s.1, agg [s.2])) <$> data da.
Proof.
  unfold daily_from, resample_D, time_axis; simpl. intros Hdays.
  destruct (data da) as [|s0 l] eqn:Hl; [done|].
  set (n := Z.of_nat (length (s0 :: l))) in *.
  assert (0 < n)%Z as Hn by (subst n; simpl; lia).
  destruct (day_of <$> (fst <$> s0 :: l)) as [|d ds] eqn:Hd; [done|].
  destruct (foldr_min_spec d ds) as [Hm1 Hm2].
  destruct (foldr_max_spec d ds) as [HM1 HM2].
  rewrite Hdays in Hm1, Hm2, HM1, HM2.
  apply elem_of_seqZ in Hm1, HM1.
  assert (foldr Z.min d ds = lo) as ->.
  { specialize (Hm2 lo). rewrite elem_of_seqZ in Hm2. lia. }
  assert (foldr Z.max d ds = lo + n - 1)%Z as ->.
  { specialize (HM2 (lo + n - 1)%Z). rewrite elem_of_seqZ in HM2. lia. }
  replace (lo + n - 1 - lo + 1)%Z with n by lia.
  assert (NoDup ((day_of ∘ fst) <$> s0 :: l)) as Hnd.
  { rewrite list_fmap_compose, Hd, Hdays. apply NoDup_seqZ. }
  rewrite <-Hdays, <-Hd, <-!list_fmap_compose.
  apply Forall_fmap_ext_1, Forall_forall. intros s Hs; simpl.
  f_equal. f_equal. unfold bin. rewrite Hl.
  rewrite (list_filter_iff _ (λ s', (day_of ∘ fst) s' = (day_of ∘ fst) s))
    by done.
  by rewrite (filter_unique_key (day_of ∘ fst)).
Qed.

Lemma nanmean_single (x : cell) : cell_eqv (nanmean [x]) x.
Proof. destruct x as [a|]; simpl; [|done]. field. Qed.

Lemma resample_D_daily_exact (agg : list cell → cell) lo
    (da : DataArray timestamp) :
  (∀ x, agg [x] = x) → daily_from lo da → resample_D agg da = on_days da.
Proof.
  intros Hagg Hdaily.
  pose proof (resample_D_daily_gen agg lo da Hdaily) as Hdata.
  unfold on_days. destruct (resample_D agg da) as [a l] eqn:E.
  simpl in Hdata. subst l.
  f_equal; [by apply (f_equal attrs) in E|].
  apply Forall_fmap_ext_1, Forall_forall. intros s _. by rewrite Hagg.
Qed.

(** X8.  On a series that has one sample per day on consecutive days, the
    step that brings the data to daily values changes nothing: the daily
    maxima and minima are the series itself, and the daily means are the
    series up to the equality of rationals. *)
Theorem resample_D_of_daily lo (da : DataArray timestamp) :
  daily_from lo da →
  resample_D nanmax da = on_days da
  ∧ resample_D nanmin da = on_days da
  ∧ Forall2 (λ a b, a.1 = b.1 ∧ cell_eqv a.2 b.2)
      (data (resample_D nanmean da)) (data (on_days da)).
Proof.
  intros Hdaily. split_and!.
  - apply (resample_D_daily_exact _ lo); [by intros [a|]|done].
  - apply (resample_D_daily_exact _ lo); [by intros [a|]|done].
  - rewrite (resample_D_daily_gen nanmean lo da Hdaily). unfold on_days; simpl.
    apply Forall2_fmap, Forall_Forall2_diag, Forall_forall.
    intros s _; simpl. split; [done|]. apply nanmean_single.
Qed.

Lemma resample_D_of_daily_sample :
  resample_D nanmax
    (mkDataArray ∅ [((364, 0), Some 22%Q); ((365, 43200), Some 12%Q)])
  = mkDataArray ∅ [(364, Some 22%Q); (365, Some 12%Q)].
Proof.
  exact (proj1 (resample_D_of_daily 364
    (mkDataArray ∅ [((364, 0), Some 22%Q); ((365, 43200), Some 12%Q)])
    eq_refl)).
Defined.

(** X9.  On a series that is daily already, [txx], [txn] and
    [tropical_nights] hand the series itself to their xclim indicator. *)
Theorem temperature_indicators_of_daily lo (da : DataArray timestamp)
    (xc : DataArray Z → string → DataArray Z)
    (convert_units_to : DataArray Z → string → DataArray Z) (freq : string) :
  daily_from lo da →
  txx xc convert_units_to da freq = convert_units_to (xc (on_days da) freq) "degC"
  ∧ txn xc convert_units_to da freq = convert_units_to (xc (on_days da) freq) "degC"
  ∧ tropical_nights xc da freq = xc (on_days da) freq.
Proof.
  intros Hdaily. unfold txx, txn, tropical_nights.
  rewrite (resample_D_daily_exact nanmax lo da); [done| |done]. by intros [a|].
Qed.

Lemma temperature_indicators_of_daily_sample :
  tropical_nights (λ da _, da)
    (mkDataArray ∅ [((364, 0), Some 22%Q); ((365, 43200), Some 12%Q)]) "YS"
  = mkDataArray ∅ [(364, Some 22%Q); (365, Some 12%Q)].
Proof.
  exact (proj2 (proj2 (temperature_indicators_of_daily 364
    (mkDataArray ∅ [((364, 0), Some 22%Q); ((365, 43200), Some 12%Q)])
    (λ da _, da) (λ da _, da) "YS" eq_refl))).
Defined.

(** ** Daily means *)





(** ** find_repo_root *)

Lemma self_and_parents_succ (p : path) (k : nat) :
  (λ n, take n p) <$> reverse (seq 1 (S k))
  = take (S k) p :: ((λ n, take n p) <$> reverse (seq 1 k)).
Proof. by rewrite seq_S, reverse_snoc. Qed.

Lemma first_with_git_candidates (fs : node) (p : path) (k : nat) :
  match first_with_git fs ((λ n, take n p) <$> reverse (seq 1 k)) with
  | Ok r =>
      ∃ n, (1 ≤ n ≤ k)%nat ∧ r = take n p
           ∧ path_exists fs (joinpath r ".git") = true
           ∧ ∀ m, (n < m ≤ k)%nat →
                  path_exists fs (joinpath (take m p) ".git") = false
  | Raise e =>
      exn_cls e = RuntimeError
      ∧ ∀ m, (1 ≤ m ≤ k)%nat →
             path_exists fs (joinpath (take m p) ".git") = false
  end.
Proof.
  induction k as [|k IH].
  { simpl. split; [done|]. intros m Hm. lia. }
  rewrite self_and_parents_succ. simpl.
  destruct (path_exists fs (joinpath (take (S k) p) ".git")) eqn:Hgit.
  - exists (S k). split_and!; [lia|lia|done|done|]. intros m Hm. lia.
  - destruct (first_with_git fs _) as [r|e].
    + destruct IH as (n & Hn & -> & Hr & Hnone).
      exists n. split_and!; [lia|lia|done|done|].
      intros m Hm. destruct (decide (m = S k)) as [->|]; [done|].
      apply Hnone. lia.
    + destruct IH as [He Hnone]. split; [done|].
      intros m Hm. destruct (decide (m = S k)) as [->|]; [done|].
      apply Hnone. lia.
Qed.

(** X11.  [find_repo_root] returns the nearest directory, from the start
    directory upwards, that holds an entry [.git]: the start directory or
    one of its ancestors, with no [.git] in any directory between it and
    the start.  It raises RuntimeError exactly when neither the start
    directory nor any ancestor holds one. *)
Theorem find_repo_root_nearest (fs : node) (p : path) :
  match find_repo_root fs p with
  | Ok r =>
      ∃ n, (1 ≤ n ≤ length p)%nat ∧ r = take n p
           ∧ path_exists fs (joinpath r ".git") = true
           ∧ ∀ m, (n < m ≤ length p)%nat →
                  path_exists fs (joinpath (take m p) ".git") = false
  | Raise e =>
      exn_cls e = RuntimeError
      ∧ ∀ m, (1 ≤ m ≤ length p)%nat →
             path_exists fs (joinpath (take m p) ".git") = false
  end.
Proof. apply first_with_git_candidates. Qed.

(** ** More on the INDICATORS directories *)

Lemma iter_indicators_dirs_elem (root : path) (t : node) (p : path) :
  p ∈ iter_indicators_dirs root t
  ↔ ∃ rel entries,
      rel ≠ [] ∧ p = (root ++ rel)%list ∧ at_path t rel (Dir entries)
      ∧ List.last rel "" = "INDICATORS"
      ∧ Forall (λ c, c ∉ ignore_parts) p.
Proof.
  unfold iter_indicators_dirs.
  rewrite sorted_set_elem_of, list_elem_of_omap. split.
  - intros ([q n] & Hin & Hsome).
    destruct n as [|entries]; simpl in Hsome; [done|].
    case_decide as Hign; [done|]. injection Hsome as ->.
    apply rglob_spec in Hin as (rel & Hne & -> & Hat & Hacc).
    exists rel, entries. split_and!; [done|done|done| |].
    + symmetry. by apply String.eqb_eq.
    + destruct (decide (Forall (λ c, c ∉ ignore_parts) (root ++ rel)%list))
        as [|Hsome]; [done|].
      by apply ignored_parts_spec in Hsome.
  - intros (rel & entries & Hne & -> & Hat & Hname & Hparts).
    exists ((root ++ rel)%list, Dir entries). split.
    + apply rglob_spec. exists rel. split_and!; [done|done|done|].
      rewrite Hname. by apply String.eqb_eq.
    + simpl. rewrite decide_False; [done|].
      by intros Hno%ignored_parts_spec.
Qed.

(** X12.  The exclusion looks at every part of a path, those of [root]
    included: below a root that has a part named 'outputs', '.git',
    '.ipynb_checkpoints' or '.cache', no directory is returned at all. *)
Theorem iter_indicators_dirs_ignored_root (root : path) (t : node) (c : string) :
  c ∈ root → c ∈ ignore_parts → iter_indicators_dirs root t = [].
Proof.
  intros Hc Hign.
  destruct (iter_indicators_dirs root t) as [|p l] eqn:E; [done|].
  assert (p ∈ iter_indicators_dirs root t) as Hp by (rewrite E; by left).
  apply iter_indicators_dirs_elem in Hp as (rel & es & _ & -> & _ & _ & Hall).
  rewrite Forall_forall in Hall. destruct (Hall c); [|done].
  apply elem_of_app. by left.
Qed.

Lemma iter_indicators_dirs_ignored_root_sample :
  iter_indicators_dirs ["/"; "home"; ".cache"; "repo"] nested_tree = [].
Proof.
  apply (iter_indicators_dirs_ignored_root _ _ ".cache").
  - by apply (list_elem_of_lookup_2 _ 2).
  - by apply (bool_decide_unpack _).
Defined.

(** X13.  The output directories of the module are never searched: no
    directory returned for the repository root lies in [OUT_ROOT], so none
    lies in [TABLE_DIR] or [FIG_DIR] either. *)
Theorem iter_indicators_dirs_skips_outputs (REPO_ROOT : path) (t : node) :
  Forall (λ p, ¬ OUT_ROOT REPO_ROOT `prefix_of` p
               ∧ ¬ TABLE_DIR REPO_ROOT `prefix_of` p
               ∧ ¬ FIG_DIR REPO_ROOT `prefix_of` p)
    (iter_indicators_dirs REPO_ROOT t).
Proof.
  apply Forall_forall. intros p Hp.
  apply iter_indicators_dirs_elem in Hp as (rel & es & _ & -> & _ & _ & Hall).
  rewrite Forall_forall in Hall.
  assert (¬ OUT_ROOT REPO_ROOT `prefix_of` (REPO_ROOT ++ rel)%list) as Hout.
  { intros [k Hk]. apply (Hall "outputs").
    - rewrite Hk. unfold OUT_ROOT, joinpath.
      rewrite !elem_of_app, list_elem_of_singleton. auto.
    - by apply (bool_decide_unpack _). }
  split_and!; [done| |].
  - intros Hpre. apply Hout. etrans; [|exact Hpre].
    unfold TABLE_DIR, joinpath. by apply prefix_app_r.
  - intros Hpre. apply Hout. etrans; [|exact Hpre].
    unfold FIG_DIR, joinpath. by apply prefix_app_r.
Qed.

(** ** The order in which directories are listed *)

Lemma relisted_is_dir (t t' : node) : relisted t t' → is_dir t = is_dir t'.
Proof. by destruct 1. Qed.

Lemma rglob_relisted (accepts : string → bool) (t : node) :
  ∀ t' parent, relisted t t' →
    hit_kind <$> rglob accepts parent t ≡ₚ hit_kind <$> rglob accepts parent t'.
Proof.
  induction t as [|es IH] using node_nested_ind; intros t' parent Hrel.
  { by inversion Hrel. }
  inversion Hrel as [|es0 es' es'' Hall Hperm]; subst.
  trans (hit_kind <$> rglob accepts parent (Dir es')).
  - simpl. rewrite !fmap_app. apply Permutation_app.
    + match goal with |- ?a ≡ₚ ?b => cut (a = b); [by intros ->|] end.
      clear Hperm Hrel IH.
      induction Hall as [|e e' es es' [Hname Hsub] _ IHall]; [done|].
      rewrite !filter_cons, Hname.
      destruct (decide (accepts e'.1 = true)); [|done].
      rewrite !fmap_cons, IHall. f_equal. unfold hit_kind; simpl.
      by rewrite Hname, (relisted_is_dir _ _ Hsub).
    + clear Hperm Hrel.
      induction Hall as [|e e' es es' [Hname Hsub] _ IHall]; [done|].
      apply Forall_cons in IH as [IHe IH].
      simpl. rewrite !fmap_app. apply Permutation_app; [|by apply IHall].
      rewrite Hname. by apply IHe.
  - apply fmap_Permutation. simpl. apply Permutation_app.
    + by rewrite Hperm.
    + by apply Permutation_flat_map.
Qed.

Lemma iter_indicators_dirs_hit_kind (root : path) (t : node) :
  iter_indicators_dirs root t
  = sorted_set
      (omap (λ hit : path * bool,
               if negb hit.2 then None
               else if decide ((list_to_set hit.1 : gset string)
                                 ∩ ignore_parts ≠ ∅)
                    then None else Some hit.1)
            (hit_kind <$> rglob (String.eqb "INDICATORS") root t)).
Proof.
  unfold iter_indicators_dirs. f_equal.
  induction (rglob (String.eqb "INDICATORS") root t) as [|[p n] l IH]; [done|].
  rewrite fmap_cons. simpl. destruct n as [|es]; simpl; [exact IH|].
  case_decide; [exact IH | by f_equal].
Qed.

Lemma relisted_refl (t : node) : relisted t t.
Proof.
  induction t as [|es IH] using node_nested_ind; [constructor|].
  apply (relisted_dir es es es); [|done].
  apply Forall_Forall2_diag. eapply Forall_impl; [exact IH|]. by intros e He.
Qed.

(** X14.  The result does not depend on the order in which the entries of
    a directory are listed, at any depth of the tree. *)
Theorem iter_indicators_dirs_listing_order (root : path) (t t' : node) :
  relisted t t' → iter_indicators_dirs root t = iter_indicators_dirs root t'.
Proof.
  intros Hrel. rewrite !iter_indicators_dirs_hit_kind.
  unfold sorted_set. do 2 f_equal.
  apply list_to_set_perm_L, omap_Permutation. by apply rglob_relisted.
Qed.

Lemma iter_indicators_dirs_listing_order_sample :
  iter_indicators_dirs repo_root
    (Dir [("Athens", Dir [("INDICATORS", Dir [])]);
          ("Birmingham", Dir [("INDICATORS", Dir [])])])
  = iter_indicators_dirs repo_root
      (Dir [("Birmingham", Dir [("INDICATORS", Dir [])]);
            ("Athens", Dir [("INDICATORS", Dir [])])]).
Proof.
  apply iter_indicators_dirs_listing_order.
  eapply relisted_dir.
  - apply Forall_Forall2_diag, Forall_forall. intros e _.
    split; [done | apply relisted_refl].
  - apply perm_swap.
Defined.

(** ** Files below the INDICATORS directories *)

Lemma wf_node_Dir (es : list (string * node)) :
  wf_node (Dir es) ↔ NoDup (fst <$> es) ∧ Forall (λ e, wf_node e.2) es.
Proof.
  simpl. apply and_iff_compat_l.
  induction es as [|e es IH]; [by split|].
  rewrite Forall_cons, <-IH. done.
Qed.

Lemma fs_lookup_wf (t : node) (rel : path) (n : node) :
  wf_node t → fs_lookup t rel = Some n → wf_node n.
Proof.
  revert t. induction rel as [|c rel IH]; intros t Hwf; simpl.
  { by intros [= <-]. }
  destruct t as [|es]; [done|].
  destruct (list_find _ es) as [[i e]|] eqn:Hfind; [|done].
  apply list_find_Some in Hfind as (Hi & _ & _).
  apply wf_node_Dir in Hwf as [_ Hall].
  rewrite Forall_forall in Hall. apply IH, Hall.
  by eapply list_elem_of_lookup_2.
Qed.

Lemma subtree_wf (root : path) (t : node) (d : path) :
  wf_node t → wf_node (subtree root t d).
Proof.
  intros Hwf. unfold subtree, node_at. case_decide; [|done].
  destruct (fs_lookup t _) as [n|] eqn:E; [|done]. by eapply fs_lookup_wf.
Qed.

Lemma rglob_path_below (accepts : string → bool) (parent : path) (t : node)
    (p : path) :
  p ∈ fst <$> rglob accepts parent t →
  ∃ rel, rel ≠ [] ∧ p = (parent ++ rel)%list.
Proof.
  intros ([q n] & -> & Hin)%list_elem_of_fmap.
  apply rglob_spec in Hin as (rel & Hne & -> & _). by exists rel.
Qed.

Lemma entries_unique (es : list (string * node)) (c : string) (n n' : node) :
  NoDup (fst <$> es) → (c, n) ∈ es → (c, n') ∈ es → n = n'.
Proof.
  induction es as [|[c0 n0] es IH]; intros Hnd Hin Hin'.
  { by apply elem_of_nil in Hin. }
  rewrite fmap_cons in Hnd. apply NoDup_cons in Hnd as [Hc0 Hnd].
  simpl in Hc0.
  apply elem_of_cons in Hin as [Hin|Hin];
    apply elem_of_cons in Hin' as [Hin'|Hin'].
  - congruence.
  - injection Hin as -> ->. destruct Hc0.
    by apply (list_elem_of_fmap_2 fst _ (c0, n')).
  - injection Hin' as -> ->. destruct Hc0.
    by apply (list_elem_of_fmap_2 fst _ (c0, n)).
  - by apply IH.
Qed.

Lemma rglob_paths_NoDup (accepts : string → bool) (t : node) :
  ∀ parent, wf_node t → NoDup (fst <$> rglob accepts parent t).
Proof.
  induction t as [|es IH] using node_nested_ind; intros parent Hwf.
  { constructor. }
  apply wf_node_Dir in Hwf as [Hnames Hsub].
  simpl. rewrite fmap_app. apply NoDup_app. split_and!.
  - rewrite <-list_fmap_compose.
    apply NoDup_fmap_2_strong.
    + intros [c n] [c' n'] [_ Hin]%list_elem_of_filter
        [_ Hin']%list_elem_of_filter Heq; simpl in *.
      unfold joinpath in Heq. apply app_inv_head in Heq as [= ->].
      f_equal. by eapply entries_unique.
    + apply NoDup_filter. eapply NoDup_fmap_1, Hnames.
  - intros p (hit & -> & Hhit)%list_elem_of_fmap Hin.
    apply list_elem_of_fmap in Hhit as ([c n] & -> & _); simpl in Hin.
    apply list_elem_of_fmap in Hin as ([q m] & Hq & Hin); simpl in *.
    apply list_elem_of_In, in_flat_map in Hin as ([c' n'] & _ & Hin).
    apply list_elem_of_In, rglob_spec in Hin as (rel & Hne & Heq & _);
      simpl in *. rewrite Heq in Hq.
    unfold joinpath in Hq. rewrite <-app_assoc in Hq.
    apply app_inv_head in Hq. simpl in Hq. injection Hq as _ <-. done.
  - revert Hnames Hsub IH.
    induction es as [|[c n] es IHes]; intros Hnames Hsub IH; [constructor|].
    rewrite fmap_cons in Hnames. apply NoDup_cons in Hnames as [Hc Hnames].
    apply Forall_cons in IH as [IHe IH]. apply Forall_cons in Hsub as [Hn Hsub].
    simpl. rewrite fmap_app. apply NoDup_app. split_and!.
    + by apply IHe.
    + intros p (rel & Hne & ->)%rglob_path_below Hin.
      apply list_elem_of_fmap in Hin as ([q m] & Hq & Hin); simpl in *.
      apply list_elem_of_In, in_flat_map in Hin as ([c' n'] & Hin' & Hin).
      apply list_elem_of_In, rglob_spec in Hin as (rel' & Hne' & Heq & _);
        simpl in *. rewrite Heq in Hq.
      unfold joinpath in Hq. rewrite <-!app_assoc in Hq.
      apply app_inv_head in Hq. simpl in Hq. injection Hq as -> _.
      apply Hc. apply list_elem_of_In in Hin'.
      by apply (list_elem_of_fmap_2 fst _ (c', n')).
    + by apply IHes.
Qed.

Lemma prefix_strict_or_eq (d d' : path) :
  d `prefix_of` d' → d = d' ∨ strict_prefix d d'.
Proof.
  intros [k ->]. destruct k as [|c k].
  - left. by rewrite app_nil_r.
  - right. by exists (c :: k).
Qed.

Lemma iter_indicator_files_NoDup fnmatch pattern root t :
  wf_node t →
  (∀ d d', d ∈ iter_indicators_dirs root t → d' ∈ iter_indicators_dirs root t →
           ¬ strict_prefix d d') →
  NoDup (iter_indicator_files fnmatch pattern root t).
Proof.
  intros Hwf Hflat. unfold iter_indicator_files. apply NoDup_bind.
  - intros d d' p Hd Hd' (rel & _ & ->)%rglob_path_below
      (rel' & _ & Heq)%rglob_path_below.
    assert (d `prefix_of` (d ++ rel)%list) as H1 by by exists rel.
    assert (d' `prefix_of` (d ++ rel)%list) as H2 by by exists rel'.
    destruct (prefix_weak_total _ _ _ H1 H2) as [Hp|Hp];
      apply prefix_strict_or_eq in Hp as [?|Hp]; try done.
    + by destruct (Hflat d d').
    + by destruct (Hflat d' d).
  - intros d _. apply rglob_paths_NoDup, subtree_wf, Hwf.
  - apply sorted_set_NoDup.
Qed.

(** X15.  In a tree where every directory names each entry once and no
    returned INDICATORS directory lies inside another one, no file is found
    twice, and [resolve_indicator_by_basename] returns [h] exactly when [h]
    is the one and only match. *)
Theorem resolve_indicator_unique fnmatch basename root t h :
  wf_node t →
  (∀ d d', d ∈ iter_indicators_dirs root t → d' ∈ iter_indicators_dirs root t →
           ¬ strict_prefix d d') →
  NoDup (iter_indicator_files fnmatch basename root t)
  ∧ (resolve_indicator_by_basename fnmatch basename root t = Ok h
     ↔ ∀ p, p ∈ iter_indicator_files fnmatch basename root t ↔ p = h).
Proof.
  intros Hwf Hflat.
  pose proof (iter_indicator_files_NoDup fnmatch basename root t Hwf Hflat) as Hnd.
  split; [done|].
  pose proof (resolve_by_hits fnmatch basename root t) as Hres.
  destruct (iter_indicator_files fnmatch basename root t) as [|h1 [|h2 hits]].
  - destruct Hres as [msg ->]. split; [done|].
    intros Hall. assert (h ∈ @nil path) as Hin by (by apply Hall).
    by apply elem_of_nil in Hin.
  - rewrite Hres. split.
    + intros [= ->] p. by rewrite list_elem_of_singleton.
    + intros Hall. f_equal. apply Hall. by left.
  - destruct Hres as [msg ->]. split; [done|]. intros Hall.
    apply NoDup_cons in Hnd as [Hne _]. destruct Hne.
    assert (h1 = h) as -> by (apply Hall; by left).
    assert (h2 = h) as -> by (apply Hall; right; by left).
    by left.
Qed.

Lemma resolve_indicator_unique_sample :
  resolve_indicator_by_basename String.eqb "athens_cdd.nc" repo_root
    (Dir [("Athens", Dir [("INDICATORS", Dir [("athens_cdd.nc", File)])])])
  = Ok ["/"; "repo"; "Athens"; "INDICATORS"; "athens_cdd.nc"].
Proof.
  apply resolve_indicator_unique.
  - simpl. repeat split; apply (bool_decide_unpack _); by vm_compute.
  - intros d d' Hd Hd' (rel & Hne & ->). vm_compute in Hd, Hd'.
    apply list_elem_of_singleton in Hd as ->.
    apply list_elem_of_singleton in Hd'.
    simpl in Hd'. by injection Hd' as ->.
  - intros p.
    replace (iter_indicator_files String.eqb "athens_cdd.nc" repo_root _)
      with [["/"; "repo"; "Athens"; "INDICATORS"; "athens_cdd.nc"]]
      by (by vm_compute).
    apply list_elem_of_singleton.
Defined.

Lemma fs_lookup_at_path (t : node) (rel : path) (n : node) :
  fs_lookup t rel = Some n → at_path t rel n.
Proof.
  revert t. induction rel as [|c rel IH]; intros t; simpl.
  { intros [= <-]. constructor. }
  destruct t as [|es]; [done|].
  destruct (list_find _ es) as [[i [c' child]]|] eqn:Hfind; [|done].
  apply list_find_Some in Hfind as (Hi & Hc & _). simpl in *. subst c'.
  intros Hsub. eapply at_down; [|by apply IH].
  by eapply list_elem_of_lookup_2.
Qed.

Lemma at_path_fs_lookup (t : node) (rel : path) (n : node) :
  wf_node t → at_path t rel n → fs_lookup t rel = Some n.
Proof.
  intros Hwf Hat. induction Hat as [|es c rest child n Hin Hat IH]; [done|].
  apply wf_node_Dir in Hwf as [Hnames Hsub]. simpl.
  destruct (list_find _ es) as [[i [c' child']]|] eqn:Hfind.
  - apply list_find_Some in Hfind as (Hi & Hc & _). simpl in *. subst c'.
    apply list_elem_of_lookup_2 in Hi.
    rewrite (entries_unique es c child' child Hnames Hi Hin).
    apply IH. rewrite Forall_forall in Hsub. by apply (Hsub (c, child)).
  - apply list_find_None in Hfind. rewrite Forall_forall in Hfind.
    by destruct (Hfind _ Hin).
Qed.

Lemma fs_lookup_app (t : node) (r1 r2 : path) (m : node) :
  fs_lookup t r1 = Some m → fs_lookup t (r1 ++ r2)%list = fs_lookup m r2.
Proof.
  revert t. induction r1 as [|c r1 IH]; intros t; simpl.
  { by intros [= <-]. }
  destruct t as [|es]; [done|].
  destruct (list_find _ es) as [[i e]|]; [|done]. apply IH.
Qed.

Lemma node_at_below (root rel : path) (t : node) :
  node_at root t (root ++ rel)%list = fs_lookup t rel.
Proof.
  unfold node_at. rewrite take_app_length, drop_app_length.
  by rewrite decide_True.
Qed.

(** X16.  In a tree where every directory names each entry once,
    [iter_indicator_files] yields exactly the entries of the tree that lie
    below a returned INDICATORS directory and whose name the pattern
    accepts. *)
Theorem iter_indicator_files_spec fnmatch pattern root t p :
  wf_node t →
  p ∈ iter_indicator_files fnmatch pattern root t
  ↔ ∃ rel1 rel2 n,
      (root ++ rel1)%list ∈ iter_indicators_dirs root t
      ∧ rel2 ≠ []
      ∧ p = (root ++ rel1 ++ rel2)%list
      ∧ at_path t (rel1 ++ rel2)%list n
      ∧ fnmatch pattern (path_name p) = true.
Proof.
  intros Hwf. unfold iter_indicator_files. rewrite list_elem_of_bind. split.
  - intros (d & Hp & Hd).
    pose proof Hd as Hd'.
    apply iter_indicators_dirs_elem in Hd' as (rel1 & es & _ & -> & Hat & _).
    apply list_elem_of_fmap in Hp as ([q n] & -> & Hin); simpl.
    unfold subtree in Hin.
    rewrite node_at_below, (at_path_fs_lookup _ _ _ Hwf Hat) in Hin.
    apply rglob_spec in Hin as (rel2 & Hne & -> & Hat2 & Hacc).
    exists rel1, rel2, n. split_and!; [done|done|by rewrite app_assoc| |].
    + apply fs_lookup_at_path.
      rewrite (fs_lookup_app _ _ _ _ (at_path_fs_lookup _ _ _ Hwf Hat)).
      apply at_path_fs_lookup; [|done].
      eapply fs_lookup_wf; [exact Hwf|]. by apply at_path_fs_lookup.
    + by rewrite path_name_app.
  - intros (rel1 & rel2 & n & Hd & Hne & -> & Hat & Hacc).
    exists (root ++ rel1)%list. split; [|done].
    pose proof Hd as Hd'.
    apply iter_indicators_dirs_elem in Hd' as (rel1' & es & _ & Heq & Hat1 & _).
    apply app_inv_head in Heq as <-.
    pose proof (at_path_fs_lookup _ _ _ Hwf Hat1) as Hl1.
    apply list_elem_of_fmap. exists ((root ++ rel1 ++ rel2)%list, n).
    split; [done|].
    unfold subtree. rewrite node_at_below, Hl1.
    change (default File (Some (Dir es))) with (Dir es).
    apply rglob_spec. exists rel2. split_and!; [done|by rewrite app_assoc| |].
    + apply fs_lookup_at_path.
      rewrite <-(fs_lookup_app _ _ _ _ Hl1). by apply at_path_fs_lookup.
    + rewrite app_assoc, path_name_app in Hacc by done. done.
Qed.

Lemma nested_tree_wf : wf_node nested_tree.
Proof.
  simpl. repeat split; apply (bool_decide_unpack _); by vm_compute.
Qed.

Lemma iter_indicator_files_spec_sample :
  nested_file ∈ iter_indicator_files String.eqb "athens_cdd.nc" repo_root nested_tree.
Proof.
  apply (iter_indicator_files_spec _ _ _ _ _ nested_tree_wf).
  exists ["Athens"; "INDICATORS"], ["era5"; "INDICATORS"; "athens_cdd.nc"], File.
  split_and!; [|done|done| |done].
  - apply (list_elem_of_lookup_2 _ 0). by vm_compute.
  - apply fs_lookup_at_path. by vm_compute.
Defined.

(** ** File names and titles *)

Lemma append_assoc (a b c : string) : (a ++ b) ++ c = a ++ b ++ c.
Proof.
  induction a as [|x a IH]; [done|].
  change (String x ((a ++ b) ++ c) = String x (a ++ b ++ c)). by rewrite IH.
Qed.

Lemma lower_ascii_idemp (c : ascii) : lower_ascii (lower_ascii c) = lower_ascii c.
Proof. by destruct c as [[] [] [] [] [] [] [] []]. Qed.

Lemma lower_idemp (s : string) : lower (lower s) = lower s.
Proof.
  induction s as [|c s IH]; simpl; [done|]. by rewrite lower_ascii_idemp, IH.
Qed.

(** X17.  [construct_filename] knows four datasets.  For each of them it
    returns a name made of the lower-cased pilot area, the dataset, the
    indicator and a period, joined by underscores and ending in [.nc]; for
    any other dataset name it raises ValueError. *)
Theorem construct_filename_outcome p dn i sy ey hsy hey psy pey sc :
  (dn ∈ ["cerra"; "eobs"; "era5-2km"; "eu-cordex-11"] →
   ∃ period,
     construct_filename p dn i sy ey hsy hey psy pey sc
     = Ok (lower p ++ "_" ++ dn ++ "_" ++ i ++ "_" ++ period ++ ".nc"))
  ∧ (dn ∉ ["cerra"; "eobs"; "era5-2km"; "eu-cordex-11"] →
     ∃ msg, construct_filename p dn i sy ey hsy hey psy pey sc
            = Raise (Exn ValueError msg)).
Proof.
  unfold construct_filename. split.
  - intros Hdn.
    destruct (bool_decide (dn ∈ ["cerra"; "eobs"])) eqn:E1;
      [|destruct (bool_decide (dn = "era5-2km")) eqn:E2;
        [|destruct (bool_decide (dn = "eu-cordex-11")) eqn:E3]].
    + exists ("eu_" ++ str_int sy ++ "_" ++ str_int ey).
      by rewrite !append_assoc.
    + exists (str_int sy ++ str_int ey). by rewrite !append_assoc.
    + exists (str_int hsy ++ "-" ++ str_int hey ++ "_"
                ++ str_int psy ++ "-" ++ str_int pey ++ "_" ++ str_str sc).
      by rewrite !append_assoc.
    + exfalso.
      apply bool_decide_eq_false in E1, E2, E3.
      rewrite !not_elem_of_cons in E1. destruct E1 as (? & ? & _).
      rewrite !elem_of_cons, elem_of_nil in Hdn.
      by destruct Hdn as [?|[?|[?|[?|[]]]]].
  - intros Hdn. rewrite !not_elem_of_cons in Hdn.
    destruct Hdn as (? & ? & ? & ? & _).
    rewrite (bool_decide_false (dn ∈ ["cerra"; "eobs"]))
      by (rewrite !not_elem_of_cons; by split_and!; try apply not_elem_of_nil).
    rewrite !bool_decide_false by done. by eexists.
Qed.

Lemma construct_filename_outcome_sample :
  ∃ msg, construct_filename "Athens" "era5" "cdd" (Some 1989) (Some 2018)
           None None None None None
         = Raise (Exn ValueError msg).
Proof.
  apply construct_filename_outcome.
  apply (bool_decide_unpack _). by vm_compute.
Defined.

(** X18.  The file name does not depend on the case of the pilot area:
    [construct_filename] gives the same outcome for a pilot area and for
    its lower-cased form. *)
Theorem construct_filename_case_insensitive p dn i sy ey hsy hey psy pey sc :
  construct_filename (lower p) dn i sy ey hsy hey psy pey sc
  = construct_filename p dn i sy ey hsy hey psy pey sc.
Proof. unfold construct_filename. by rewrite lower_idemp. Qed.

(** X19.  Which years count.  For every dataset other than eu-cordex-11 the
    file name, the title and the PNG name do not depend on the historical
    and projection years or on the scenario; for eu-cordex-11 they do not
    depend on [start_year] and [end_year]. *)
Theorem names_ignore_unused_years p dn i v sy ey hsy hey psy pey sc
    sy' ey' hsy' hey' psy' pey' sc' :
  (dn ≠ "eu-cordex-11" →
   construct_filename p dn i sy ey hsy hey psy pey sc
   = construct_filename p dn i sy ey hsy' hey' psy' pey' sc'
   ∧ get_title_and_savefig p dn v sy ey hsy hey psy pey sc
     = get_title_and_savefig p dn v sy ey hsy' hey' psy' pey' sc')
  ∧ (dn = "eu-cordex-11" →
     construct_filename p dn i sy ey hsy hey psy pey sc
     = construct_filename p dn i sy' ey' hsy hey psy pey sc
     ∧ get_title_and_savefig p dn v sy ey hsy hey psy pey sc
       = get_title_and_savefig p dn v sy' ey' hsy hey psy pey sc).
Proof.
  unfold construct_filename, get_title_and_savefig. split.
  - intros Hdn. by rewrite !(bool_decide_false (dn = "eu-cordex-11")).
  - intros ->.
    rewrite !(bool_decide_false ("eu-cordex-11" ∈ ["cerra"; "eobs"]))
      by (apply (bool_decide_unpack _); by vm_compute).
    by rewrite !(bool_decide_false ("eu-cordex-11" = "era5-2km")).
Qed.

Lemma names_ignore_unused_years_sample :
  construct_filename "Athens" "eu-cordex-11" "cdd" (Some 1989) (Some 2018)
    (Some 1981) (Some 2010) (Some 2021) (Some 2050) (Some "rcp26")
  = construct_filename "Athens" "eu-cordex-11" "cdd" None None
      (Some 1981) (Some 2010) (Some 2021) (Some 2050) (Some "rcp26").
Proof.
  exact (proj1 (proj2 (names_ignore_unused_years "Athens" "eu-cordex-11" "cdd"
    "CDD" (Some 1989) (Some 2018) (Some 1981) (Some 2010) (Some 2021)
    (Some 2050) (Some "rcp26") None None None None None None None) eq_refl)).
Defined.

(** ** Longitudes *)

(** X20.  [wrap_lon] keeps the length and the NaNs of the array, leaves a
    longitude as it is or lowers it by 360, and brings every longitude
    from 0 to 360 into the range from -180 (excluded) to 180 (included). *)
Theorem wrap_lon_range (lon : list cell) :
  Forall2 (λ x r,
      match x with
      | Some q => ∃ q', r = Some q'
                        ∧ (q' == q ∨ q' == q - 360)%Q
                        ∧ ((0 <= q ∧ q <= 360) → (-180 < q' ∧ q' <= 180))%Q
      | None => r = None
      end) lon (wrap_lon lon).
Proof.
  unfold wrap_lon. apply Forall2_fmap_r, Forall_Forall2_diag, Forall_forall.
  intros [q|] _; [|done].
  unfold xr_where, cgt, csub, lift2. simpl. q_cases.
  - exists q. split; [done|]. split; [left; reflexivity|]. intros. lra.
  - exists (q - 360)%Q. split; [done|]. split; [right; reflexivity|].
    intros. lra.
Qed.

(** ** The plotting script from end to end *)

Lemma ds_getitem_log ds key : log (ds_getitem ds key) = [].
Proof. unfold ds_getitem. by destruct (list_find _ _) as [[i e]|]. Qed.

Lemma mask_select_none (arr data : list cell) :
  length arr = length data → Forall (λ x, x = None) data →
  mask_select arr ((λ x : cell, bool_decide (is_Some x)) <$> data) = ([], Ok []).
Proof.
  intros Hlen Hnan. unfold mask_select.
  rewrite decide_True by (by rewrite length_fmap).
  do 2 f_equal. revert arr Hlen.
  induction Hnan as [|x data -> _ IH]; intros [|a arr] Hlen; try done.
  simpl. apply IH. simpl in Hlen. lia.
Qed.

Lemma size_of_squeeze (shape : list Z) : size_of (squeeze shape) = size_of shape.
Proof.
  unfold size_of, squeeze. induction shape as [|n shape IH]; [done|].
  rewrite filter_cons. simpl. case_decide as Hn; simpl; [by rewrite IH|].
  rewrite IH. lia.
Qed.

(** A coordinate of the squeezed shape of a variable has as many values as
    the variable. *)
Lemma squeezed_shape_length (var coord : NcVariable) :
  well_shaped var → well_shaped coord →
  shape coord = squeeze (shape var) →
  length (var_values coord) = length (var_values var).
Proof.
  unfold well_shaped. intros Hv Hc Hshape.
  rewrite Hshape, size_of_squeeze in Hc. lia.
Qed.

(** X21.  A field without a single number stops the script: when the two
    coordinates have the shape of the squeezed variable and every value of
    the variable is NaN, [load_data] raises ValueError (the minimum of an
    empty array), after the dataset has been read. *)
Theorem load_data_all_nan cfg w filename ds var lon lat :
  construct_filename (pilotarea cfg) (dataset_name cfg) (indicator cfg)
    (start_year cfg) (end_year cfg) (hist_start_year cfg) (hist_end_year cfg)
    (proj_start_year cfg) (proj_end_year cfg) (scenario cfg) = Ok filename →
  open_dataset w (base (pilotarea cfg) ++ "/" ++ filename) = Ok ds →
  result (ds_getitem ds var_name) = Ok var →
  result (ds_getitem ds "lon") = Ok lon →
  result (ds_getitem ds "lat") = Ok lat →
  well_shaped var → well_shaped lon → well_shaped lat →
  shape lon = squeeze (shape var) →
  shape lat = squeeze (shape var) →
  let data := if is_timedelta var then timedelta_days w (var_values var)
              else var_values var in
  length data = length (var_values var) →
  Forall (λ x, x = None) data →
  ∃ msg, result (load_data cfg w) = Raise (Exn ValueError msg).
Proof.
  intros Hcf Hds Hvar Hlon Hlat Wv Wlon Wlat Slon Slat data Hlen Hnan.
  pose proof (squeezed_shape_length var lon Wv Wlon Slon) as Hl1.
  pose proof (squeezed_shape_length var lat Wv Wlat Slat) as Hl2.
  rewrite <-Hlen in Hl1, Hl2.
  unfold load_data. rewrite Hcf.
  do 3 (rewrite result_bind; cbn [result lift emit snd]).
  rewrite Hds, result_bind. cbn [result lift emit snd].
  do 2 (rewrite result_bind; cbn [result lift emit snd]).
  rewrite result_bind, Hvar. cbv iota beta.
  rewrite result_bind, Hlon. cbv iota beta.
  rewrite result_bind, Hlat. cbv iota beta.
  do 2 (rewrite result_bind; cbn [result lift emit snd]).
  fold data.
  rewrite result_bind, (mask_select_none _ _ Hl1 Hnan). cbn [result snd].
  rewrite result_bind, (mask_select_none _ _ Hl2 Hnan). cbn [result snd].
  by eexists.
Qed.

Lemma load_data_all_nan_sample :
  ∃ msg,
    result (load_data example_1
      (mkWorld
         (λ _, Ok (mkDataset
            [("CDD", mkVariable false [1; 2] [None; None])]
            [("lon", mkVariable false [2] [Some 23%Q; Some 24%Q]);
             ("lat", mkVariable false [2] [Some 37%Q; Some 38%Q])]))
         (λ _, Ok sample_gdf) (λ gdf _, Ok gdf) (λ xs, xs) (λ _ _, None)))
    = Raise (Exn ValueError msg).
Proof.
  eapply (load_data_all_nan example_1); try reflexivity.
  by repeat constructor.
Defined.

(** X22.  An unknown dataset name stops the script at once: it raises
    ValueError before anything is printed, read or drawn. *)
Theorem plot_map_2D_unknown_dataset cfg w :
  dataset_name cfg ∉ ["cerra"; "eobs"; "era5-2km"; "eu-cordex-11"] →
  ∃ msg, plot_map_2D cfg w = ([], Raise (Exn ValueError msg)).
Proof.
  intros Hdn. rewrite !not_elem_of_cons in Hdn.
  destruct Hdn as (? & ? & ? & ? & _).
  unfold plot_map_2D, load_data, construct_filename.
  rewrite (bool_decide_false (dataset_name cfg ∈ ["cerra"; "eobs"]))
    by (rewrite !not_elem_of_cons; by split_and!; try apply not_elem_of_nil).
  rewrite !bool_decide_false by done. by eexists.
Qed.

Lemma plot_map_2D_unknown_dataset_sample :
  ∃ msg,
    plot_map_2D (mkConfig "viridis" "Athens" "era5" "cdd" (Some 1989)
                   (Some 2018) None None None None None)
      (sample_world (Ok sample_gdf))
    = ([], Raise (Exn ValueError msg)).
Proof.
  apply plot_map_2D_unknown_dataset.
  apply (bool_decide_unpack _). by vm_compute.
Defined.

(** X23.  The FUA block never lets an exception out.  It reports a shape as
    found exactly when the shapefile is read and reprojected, has a
    FUA_NAME column and holds a row named Athina; a shape reported as found
    is there, is not empty and holds rows named Athina only. *)
Theorem load_fua_never_raises pilotarea w :
  ∃ fua_shape fua_found,
    result (load_fua pilotarea w) = Ok (fua_shape, fua_found)
    ∧ (fua_found = true
       ↔ ∃ gdf fua_gdf,
           read_file w FUA_SHP = Ok gdf ∧ to_crs w gdf 4326 = Ok fua_gdf
           ∧ "FUA_NAME" ∈ columns fua_gdf
           ∧ Exists (λ r, props r !! "FUA_NAME" = Some "Athina") (rows fua_gdf))
    ∧ (fua_found = true →
       ∃ shp, fua_shape = Some shp ∧ rows shp ≠ []
              ∧ Forall (λ r, props r !! "FUA_NAME" = Some "Athina") (rows shp)).
Proof.
  unfold load_fua, select_fua.
  destruct (read_file w FUA_SHP) as [gdf|e] eqn:Hread; simpl.
  2:{ exists None, false. split; [done|]. split; [|done].
      split; [done|]. by intros (? & ? & ? & _). }
  destruct (to_crs w gdf 4326) as [fua_gdf|e] eqn:Hcrs; simpl.
  2:{ exists None, false. split; [done|]. split; [|done].
      split; [done|]. intros (? & ? & [= <-] & ? & _). congruence. }
  case_bool_decide as Hcol; simpl.
  2:{ exists None, false. split; [done|]. split; [|done].
      split; [done|]. intros (? & ? & [= <-] & Hc & ? & _).
      rewrite Hcrs in Hc. by injection Hc as <-. }
  set (sel := filter (λ r, props r !! "FUA_NAME" = Some "Athina") (rows fua_gdf)).
  exists (Some (mkGdf (columns fua_gdf) sel)),
         (negb (bool_decide (sel = []))).
  split; [done|].
  assert (negb (bool_decide (sel = [])) = true
          ↔ Exists (λ r, props r !! "FUA_NAME" = Some "Athina") (rows fua_gdf))
    as Hfound.
  { rewrite negb_true_iff, bool_decide_eq_false, Exists_exists. split.
    - intros Hne. destruct sel as [|r sel'] eqn:E; [done|].
      assert (r ∈ sel) as Hr by (rewrite E; by left).
      apply list_elem_of_filter in Hr as [? ?]. by exists r.
    - intros (r & Hr & Hname) Hnil.
      assert (r ∈ sel) as Hin by (by apply list_elem_of_filter).
      rewrite Hnil in Hin. by apply elem_of_nil in Hin. }
  split.
  - rewrite Hfound. split.
    + intros Hex. by exists gdf, fua_gdf.
    + intros (? & ? & [= <-] & Hc & _ & Hex).
      rewrite Hcrs in Hc. by injection Hc as <-.
  - intros Hf. exists (mkGdf (columns fua_gdf) sel). split; [done|]. split.
    + simpl. by apply negb_true_iff, bool_decide_eq_false in Hf.
    + simpl. apply Forall_forall. by intros r [? _]%list_elem_of_filter.
Qed.

Lemma load_data_no_plt cfg w : Forall no_plt (log (load_data cfg w)).
Proof.
  unfold load_data.
  repeat (apply Forall_log_bind; [|intros ?]);
    first [ apply Forall_log_lift | apply Forall_log_ds_getitem
          | apply Forall_log_mask_select | apply Forall_log_np_reduce
          | by apply Forall_log_print | by repeat constructor ].
Qed.

Lemma load_fua_no_plt pilotarea w : Forall no_plt (log (load_fua pilotarea w)).
Proof.
  unfold load_fua. apply Forall_log_try_except.
  - repeat (apply Forall_log_bind; [|intros ?]);
      first [ apply Forall_log_lift | apply Forall_log_select_fua
            | by apply Forall_log_print | by repeat constructor ].
  - intros e. by repeat constructor.
Qed.

Lemma no_plt_calls (l : list event) : Forall no_plt l → plt_calls l = [].
Proof.
  induction 1 as [|ev l Hev _ IH]; [done|].
  unfold plt_calls in *. by destruct ev.
Qed.

Lemma load_fua_shape pilotarea w :
  ∃ lf fua_shape fua_found,
    load_fua pilotarea w = (lf, Ok (fua_shape, fua_found))
    ∧ (fua_found = true → is_Some fua_shape).
Proof.
  unfold load_fua, select_fua.
  destruct (read_file w FUA_SHP) as [gdf|e]; simpl; [|by eexists _, _, _].
  destruct (to_crs w gdf 4326) as [fua_gdf|e]; simpl; [|by eexists _, _, _].
  case_bool_decide; simpl; [|by eexists _, _, _].
  eexists _, _, _. split; [reflexivity|]. by intros _.
Qed.

Lemma draw_and_save_run cfg w d fua_shape fua_found :
  lon_valid d ≠ [] → lat_valid d ≠ [] →
  (fua_found = true → is_Some fua_shape) →
  result (draw_and_save cfg w d (fua_shape, fua_found)) = Ok tt
  ∧ written (log (draw_and_save cfg w d (fua_shape, fua_found)))
    = [savefig_name cfg]
  ∧ existsb is_boundary_plot
      (plt_calls (log (draw_and_save cfg w d (fua_shape, fua_found))))
    = fua_found.
Proof.
  destruct d as [lon lat g [|x xs] [|y ys]]; simpl; try done. intros _ _ Hshape.
  unfold draw_and_save, savefig_name; simpl.
  destruct (get_title_and_savefig _ _ _ _ _ _ _ _ _ _) as [t n]; simpl.
  destruct fua_found; [|done].
  destruct Hshape as [shp ->]; done.
Qed.

(** X24.  The script stands or falls with the loading of the data.  If
    [load_data] returns, the script ends normally whatever happens to the
    shapefile, it writes exactly one file, the PNG named by
    [get_title_and_savefig], and it draws a boundary exactly when the FUA
    block reports a shape as found.  If [load_data] raises, the script
    raises the same exception and has drawn and written nothing.  (The
    calls of matplotlib themselves are taken to succeed.) *)
Theorem plot_map_2D_outcome cfg w :
  match result (load_data cfg w) with
  | Ok d =>
      result (plot_map_2D cfg w) = Ok tt
      ∧ written (log (plot_map_2D cfg w)) = [savefig_name cfg]
      ∧ ∃ fua_shape fua_found,
          result (load_fua (pilotarea cfg) w) = Ok (fua_shape, fua_found)
          ∧ existsb is_boundary_plot (plt_calls (log (plot_map_2D cfg w)))
            = fua_found
  | Raise e =>
      result (plot_map_2D cfg w) = Raise e
      ∧ written (log (plot_map_2D cfg w)) = []
      ∧ plt_calls (log (plot_map_2D cfg w)) = []
  end.
Proof.
  destruct (only_reads_written _ (load_data_only_reads cfg w)) as [Hw0 _].
  destruct (only_reads_written _ (load_fua_only_reads (pilotarea cfg) w))
    as [Hw1 _].
  pose proof (no_plt_calls _ (load_data_no_plt cfg w)) as Hp0.
  pose proof (no_plt_calls _ (load_fua_no_plt (pilotarea cfg) w)) as Hp1.
  unfold plot_map_2D.
  destruct (load_data cfg w) as [l0 [d|e]] eqn:Hd;
    unfold log in Hw0, Hp0; cbn [fst] in Hw0, Hp0;
    (match goal with |- context [result (?l, ?r)] =>
       change (result (l, r)) with r end).
  - destruct (load_data_Ok _ _ _ _ Hd) as [Hlon Hlat].
    destruct (load_fua_shape (pilotarea cfg) w)
      as (lf & fua_shape & fua_found & Hf & Hshape).
    destruct (draw_and_save_run cfg w d fua_shape fua_found Hlon Hlat Hshape)
      as (Hres & Hw & Hb).
    rewrite Hf in Hw1, Hp1. unfold log in Hw1, Hp1. cbn [fst] in Hw1, Hp1.
    rewrite bind_Ok_l, Hf, bind_Ok_l. cbv beta.
    destruct (draw_and_save cfg w d (fua_shape, fua_found)) as [ld rd].
    unfold log, result in *. cbn [fst snd] in *. subst rd.
    split; [done|]. split.
    + unfold written in *. by rewrite !omap_app, Hw0, Hw1, Hw.
    + exists fua_shape, fua_found. split; [done|].
      unfold plt_calls in *. rewrite !omap_app, Hp0, Hp1. exact Hb.
  - unfold mbind, M_bind, bind, log, result. cbn [fst snd].
    by split_and!.
Qed.
